(** * Warm-transfer demo: token endpoints, demo page and call UI

    A shallow embedding of the TypeScript sources:

    - [TokenApi]     the two route handlers that mint LiveKit access tokens
                      (the [POST] token route and the [GET] room route);
    - [DemoPage]     the single-page warm-transfer demo ([Page]) with its
                      connect / transfer / complete handlers;
    - [CallUi]       the call interface components: the staged
                      [TransferStatus] display, the cancel handler and the
                      agent / customer lists;
    - [Orchestrator] the transfer state table of the specification, for the
                      backend that is not part of these sources.

    JavaScript values are modelled as far as the handlers look at them:
    truthiness, property lookup, string inclusion.  Calls into the LiveKit
    SDK and the media server are inputs of the handlers. *)

From Stdlib Require Import ZArith Lia Ascii DecimalString DecimalN.
From stdpp Require Import base option list strings gmap.

Local Open Scope string_scope.

(** ** JavaScript values *)

(** A parsed JSON value.  Numbers are integers here: the handlers only test
    them for truthiness. *)
#[local] Unset Elimination Schemes.
Inductive json : Type :=
| JNull
| JBool (b : bool)
| JNum (n : Z)
| JStr (s : string)
| JArr (xs : list json)
| JObj (fields : list (string * json)).
#[local] Set Elimination Schemes.

(** A JavaScript value read from a property: [None] is [undefined]. *)
Definition jsval : Type := option json.

(** [!!v] of JavaScript. *)
Definition truthy (v : jsval) : bool :=
  match v with
  | None => false
  | Some JNull => false
  | Some (JBool b) => b
  | Some (JNum n) => negb (n =? 0)%Z
  | Some (JStr s) => negb (bool_decide (s = ""))
  | Some (JArr _) => true
  | Some (JObj _) => true
  end.

(** The value of a string-or-undefined ([process.env.X],
    [searchParams.get]) as a JavaScript value. *)
Definition of_string (o : option string) : jsval := JStr <$> o.

(** [JSON.parse] keeps the last of several fields of one name. *)
Fixpoint field (k : string) (fs : list (string * json)) : jsval :=
  match fs with
  | [] => None
  | (k', v) :: rest =>
      match field k rest with
      | Some w => Some w
      | None => if bool_decide (k' = k) then Some v else None
      end
  end.

(** ** Exceptions and the trace of observable calls *)

Module TokenApi.

(** The [VideoGrant] object literal handed to [addGrant]; an unset flag is
    [None]. *)
Record VideoGrant : Type := mkVideoGrant {
  room : jsval;
  roomJoin : option bool;
  canPublish : option bool;
  canSubscribe : option bool;
  canPublishData : option bool;
  canUpdateOwnMetadata : option bool
}.

(** The state of an SDK [AccessToken] object: the constructor arguments and
    the video grant set by [addGrant]. *)
Record AccessToken : Type := mkAccessToken {
  at_apiKey : option string;
  at_apiSecret : option string;
  at_identity : jsval;
  at_name : jsval;
  at_ttl : option string;
  at_video : option VideoGrant
}.

Definition new_AccessToken (apiKey apiSecret : option string)
    (identity name : jsval) (ttl : option string) : AccessToken :=
  mkAccessToken apiKey apiSecret identity name ttl None.

(** [addGrant] stores the video grant of the token. *)
Definition addGrant (g : VideoGrant) (a : AccessToken) : AccessToken :=
  mkAccessToken (at_apiKey a) (at_apiSecret a) (at_identity a) (at_name a)
                (at_ttl a) (Some g).

(** What a handler does that can be seen from outside, in order. *)
Inductive effect : Type :=
| Log (msg : string)
| LogError (msg : string)
| CreateRoom (name : string) (ok : bool)
| Minted (a : AccessToken) (jwt : string).

Inductive outcome (A : Type) : Type :=
| Ret (a : A)
| Throw (e : string).
Arguments Ret {A} a.
Arguments Throw {A} e.

(** Handlers run in a monad of exceptions over the trace of effects. *)
Definition M (A : Type) : Type := list effect -> outcome A * list effect.

Definition ret {A} (a : A) : M A := fun tr => (Ret a, tr).
Definition throw {A} (e : string) : M A := fun tr => (Throw e, tr).
Definition emit (e : effect) : M unit := fun tr => (Ret tt, (tr ++ [e])%list).
Definition bind {A B} (k : A -> M B) (m : M A) : M B :=
  fun tr =>
    match m tr with
    | (Ret a, tr') => k a tr'
    | (Throw e, tr') => (Throw e, tr')
    end.
Definition try_catch {A} (m : M A) (h : string -> M A) : M A :=
  fun tr =>
    match m tr with
    | (Ret a, tr') => (Ret a, tr')
    | (Throw e, tr') => h e tr'
    end.

#[global] Instance M_ret : MRet M := @ret.
#[global] Instance M_bind : MBind M := @bind.

(** The result and the trace of a handler started on an empty trace. *)
Definition run {A} (m : M A) : outcome A * list effect := m [].

(** ** HTTP responses *)

Inductive body : Type :=
| ErrorBody (error : string)
| TokenBody (token : string)
| RoomTokenBody (roomName token : string).

Record response : Type := mkResponse { payload : body; status : nat }.

Definition env : Type := gmap string string.

Section Handlers.

(** [AccessToken.toJwt] of the SDK: the signed token, or [None] when the
    SDK throws. *)
Variable toJwt : AccessToken -> option string.

(** The media server's answer to [RoomServiceClient.createRoom]: [true]
    when the call resolves, [false] when it rejects. *)
Variable transport : string -> bool.

Definition sdk_toJwt (a : AccessToken) : M string :=
  match toJwt a with
  | Some t => emit (Minted a t);; ret t
  | None => throw "toJwt"
  end.

Definition sdk_createRoom (name : string) : M unit :=
  if transport name
  then emit (CreateRoom name true)
  else emit (CreateRoom name false);; throw "createRoom".

(** [await request.json()]: [None] is a body that is not JSON. *)
Definition request_json (b : option json) : M json :=
  match b with
  | Some j => ret j
  | None => throw "invalid json"
  end.

(** [const { room, identity } = ...]: destructuring [null] throws; a value
    that is not an object has neither property. *)
Definition destructure (j : json) : M (jsval * jsval) :=
  match j with
  | JNull => throw "TypeError"
  | JObj fs => ret (field "room" fs, field "identity" fs)
  | _ => ret (None, None)
  end.

Definition credentials_message : string :=
  "LiveKit credentials not configured. Please set LIVEKIT_API_KEY, LIVEKIT_API_SECRET, and NEXT_PUBLIC_LIVEKIT_URL environment variables.".

(** The token built by [POST] for a room and an identity. *)
Definition POST_token (apiKey apiSecret : option string)
    (room identity : jsval) : AccessToken :=
  addGrant
    {| room := room;
       roomJoin := Some true;
       canPublish := Some true;
       canSubscribe := Some true;
       canPublishData := Some true;
       canUpdateOwnMetadata := None |}
    (new_AccessToken apiKey apiSecret identity None (Some "24h")).

(** The token route. *)
Definition POST (e : env) (request : option json) : M response :=
  try_catch
    (j ← request_json request;
     ri ← destructure j;
     let room := fst ri in
     let identity := snd ri in
     emit (Log "[v0] Token request for room:");;
     if negb (truthy room) || negb (truthy identity) then
       emit (Log "[v0] Missing room or identity");;
       ret (mkResponse (ErrorBody "Room and identity are required") 400)
     else
       let apiKey := e !! "LIVEKIT_API_KEY" in
       let apiSecret := e !! "LIVEKIT_API_SECRET" in
       let wsUrl := e !! "NEXT_PUBLIC_LIVEKIT_URL" in
       emit (Log "[v0] Environment check - API Key:");;
       if negb (truthy (of_string apiKey)) || negb (truthy (of_string apiSecret))
          || negb (truthy (of_string wsUrl)) then
         emit (Log "[v0] Missing LiveKit credentials");;
         ret (mkResponse (ErrorBody credentials_message) 500)
       else
         token ← sdk_toJwt (POST_token apiKey apiSecret room identity);
         emit (Log "[v0] Token generated successfully");;
         ret (mkResponse (TokenBody token) 200))
    (fun _ =>
       emit (LogError "[v0] Error generating token:");;
       ret (mkResponse (ErrorBody "Failed to generate token") 500)).

(** [createaccesstoken]: the key and the secret come from the module-level
    constants, read from the environment. *)
Definition createaccesstoken (e : env) (identity name : jsval)
    (grant : VideoGrant) : M string :=
  sdk_toJwt
    (addGrant grant
       (new_AccessToken (e !! "LIVEKIT_API_KEY") (e !! "LIVEKIT_API_SECRET")
          identity name None)).

(** The room route.  [userid] is the query parameter, [uuid] the identifier
    drawn by [uuid()].  The [catch] block only logs, so that an exception
    ends the handler without a response: [None]. *)
Definition GET (e : env) (userid : option string) (uuid : string)
    : M (option response) :=
  try_catch
    (let userId := userid in
     emit (Log (default "null" userId));;
     (if negb (truthy (of_string userId)) then throw "error no user id"
      else ret tt);;
     let roomName := uuid in
     (if negb (truthy (of_string (e !! "LIVEKIT_URL")))
      then throw "Missing env variable! " else ret tt);;
     sdk_createRoom roomName;;
     let grant :=
       {| room := Some (JStr roomName);
          roomJoin := Some true;
          canPublish := Some true;
          canPublishData := Some true;
          canSubscribe := Some true;
          canUpdateOwnMetadata := Some true |} in
     token ← createaccesstoken e (of_string userId) (of_string userId) grant;
     ret (Some (mkResponse (RoomTokenBody roomName token) 200)))
    (fun err => emit (LogError ("Error " ++ err));; ret None).

End Handlers.

(** The token built by [GET] for a user in a room. *)
Definition GET_token (e : env) (userid : option string) (uuid : string)
    : AccessToken :=
  addGrant
    {| room := Some (JStr uuid); roomJoin := Some true; canPublish := Some true;
       canSubscribe := Some true; canPublishData := Some true;
       canUpdateOwnMetadata := Some true |}
    (new_AccessToken (e !! "LIVEKIT_API_KEY") (e !! "LIVEKIT_API_SECRET")
       (of_string userid) (of_string userid) None).

(** The tokens a run has produced, oldest first. *)
Definition minted (tr : list effect) : list (AccessToken * string) :=
  omap (fun ef => match ef with Minted a t => Some (a, t) | _ => None end) tr.

(** How often a run has called the media server's [createRoom]. *)
Definition create_calls (tr : list effect) : nat :=
  length (List.filter
            (fun ef => match ef with CreateRoom _ _ => true | _ => false end) tr).

(** A run surfaces a transport error after one retry: the media server was
    called a second time, and the caller gets an error (an exception or an
    error answer). *)
Definition surfaces_error_after_retry
    (res : outcome (option response)) (tr : list effect) : Prop :=
  create_calls tr = 2
  /\ ((exists err, res = Throw err)
      \/ (exists r msg, res = Ret (Some r) /\ payload r = ErrorBody msg)).

(** The (identity, room) pairs a token admits. *)
Definition authorizes (a : AccessToken) : list (jsval * jsval) :=
  match at_video a with
  | Some g => [(at_identity a, room g)]
  | None => []
  end.

(** The two properties [POST] reads from its request body, when reading
    them does not throw. *)
Definition props (request : option json) : option (jsval * jsval) :=
  match request with
  | None => None
  | Some JNull => None
  | Some (JObj fs) => Some (field "room" fs, field "identity" fs)
  | Some _ => Some (None, None)
  end.







End TokenApi.

(** ** The warm-transfer demo page *)

Module DemoPage.

(** What the media server reads from a join token: who joins which room.
    The tokens themselves are made by the backend. *)
Record token : Type := mkToken { tk_identity : string; tk_room : string }.

Record InitiateResp : Type := mkInitiateResp {
  i_room_id : string;
  caller_token : token
}.

Record ConnectAgentResp : Type := mkConnectAgentResp {
  c_room_id : string;
  agent_token : token
}.

Record TransferResp : Type := mkTransferResp {
  original_room_id : string;
  transfer_room_id : string;
  agent_a_token : token;
  agent_b_token : token;
  call_summary : string
}.

Record CompleteTransferResp : Type := mkCompleteTransferResp {
  room_id : string;
  ct_agent_b_token : token;
  ct_status : string
}.

(** Modelled from the spec: the backend that serves [complete-transfer] is
    not among the sources.  The specification lets the orchestrator tell the
    media transport to remove Agent A's membership while it hands off, so a
    reply comes with the identities the server has removed from the room
    [room_id] before it answered (none, when the server removes nobody). *)
Record CompleteReply : Type := mkCompleteReply {
  resp : CompleteTransferResp;
  removed : list string
}.

(** One live connection to the media server: a connected [Room] object. *)
Record connection : Type := mkConnection { cid : nat; who : token }.

(** The media server: its live connections, the next free handle and the
    tracks published over a connection. *)
Record Media : Type := mkMedia {
  live : list connection;
  fresh : nat;
  published : list (nat * nat)
}.

(** The React state of [Page] (a [Room] handle is the connection's number)
    together with the media server it talks to. *)
Record World : Type := mkWorld {
  callerRoom : option nat;
  agentARoom : option nat;
  agentBRoom : option nat;
  origRoomId : string;
  transferInfo : option TransferResp;
  summary : string;
  agentATrack : option nat;
  status : string;
  media : Media
}.

Definition initial : World :=
  mkWorld None None None "" None "" None "idle" (mkMedia [] 0 []).

Definition setCallerRoom (v : option nat) (w : World) : World :=
  mkWorld v (agentARoom w) (agentBRoom w) (origRoomId w) (transferInfo w)
          (summary w) (agentATrack w) (status w) (media w).
Definition setAgentARoom (v : option nat) (w : World) : World :=
  mkWorld (callerRoom w) v (agentBRoom w) (origRoomId w) (transferInfo w)
          (summary w) (agentATrack w) (status w) (media w).
Definition setAgentBRoom (v : option nat) (w : World) : World :=
  mkWorld (callerRoom w) (agentARoom w) v (origRoomId w) (transferInfo w)
          (summary w) (agentATrack w) (status w) (media w).
Definition setOrigRoomId (v : string) (w : World) : World :=
  mkWorld (callerRoom w) (agentARoom w) (agentBRoom w) v (transferInfo w)
          (summary w) (agentATrack w) (status w) (media w).
Definition setTransferInfo (v : option TransferResp) (w : World) : World :=
  mkWorld (callerRoom w) (agentARoom w) (agentBRoom w) (origRoomId w) v
          (summary w) (agentATrack w) (status w) (media w).
Definition setSummary (v : string) (w : World) : World :=
  mkWorld (callerRoom w) (agentARoom w) (agentBRoom w) (origRoomId w)
          (transferInfo w) v (agentATrack w) (status w) (media w).
Definition setAgentATrack (v : option nat) (w : World) : World :=
  mkWorld (callerRoom w) (agentARoom w) (agentBRoom w) (origRoomId w)
          (transferInfo w) (summary w) v (status w) (media w).
Definition setStatus (v : string) (w : World) : World :=
  mkWorld (callerRoom w) (agentARoom w) (agentBRoom w) (origRoomId w)
          (transferInfo w) (summary w) (agentATrack w) v (media w).
Definition setMedia (v : Media) (w : World) : World :=
  mkWorld (callerRoom w) (agentARoom w) (agentBRoom w) (origRoomId w)
          (transferInfo w) (summary w) (agentATrack w) (status w) v.

(** [room.disconnect()]: the connection and its tracks are gone; on a room
    that is not connected nothing happens. *)
Definition disconnect (h : nat) (m : Media) : Media :=
  mkMedia (List.filter (fun c => negb (Nat.eqb (cid c) h)) (live m))
          (fresh m)
          (List.filter (fun p => negb (Nat.eqb (fst p) h)) (published m)).

(** [localParticipant.publishTrack] and [unpublishTrack]. *)
Definition publishTrack (h track : nat) (m : Media) : Media :=
  mkMedia (live m) (fresh m) (published m ++ [(h, track)])%list.
Definition unpublishTrack (h track : nat) (m : Media) : Media :=
  mkMedia (live m) (fresh m)
          (List.filter (fun p => negb (Nat.eqb (fst p) h && Nat.eqb (snd p) track))
                       (published m)).

(** The server removes the connections of the given identities from a
    room. *)
Definition server_remove (room : string) (ids : list string) (m : Media) : Media :=
  mkMedia
    (List.filter
       (fun c => negb (bool_decide (tk_room (who c) = room)
                       && bool_decide (tk_identity (who c) ∈ ids)))
       (live m))
    (fresh m) (published m).

Section Page.

(** Whether the media server lets a token in: [room.connect] rejects
    otherwise. *)
Variable admits : token -> bool.

(** [connectRoom]: a new [Room] connected with the token; [None] when
    [connect] rejects. *)
Definition connectRoom (t : token) (m : Media) : option (nat * Media) :=
  if admits t
  then Some (fresh m,
             mkMedia (live m ++ [mkConnection (fresh m) t])%list
                     (S (fresh m)) (published m))
  else None.

(** Each handler yields the worlds it goes through, oldest first; the list
    is empty when it returns at once or its request fails.  A reply [None]
    is a request that fails. *)

Definition initiateCall (reply : option InitiateResp) (w : World) : list World :=
  match reply with
  | None => []
  | Some r =>
      let w1 := setOrigRoomId (i_room_id r) w in
      match connectRoom (caller_token r) (media w1) with
      | None => [w1]
      | Some (h, m) =>
          let w2 := setMedia m w1 in
          [w1; w2; setStatus "caller_connected" (setCallerRoom (Some h) w2)]
      end
  end.

Definition connectAgentA (reply : option ConnectAgentResp) (w : World) : list World :=
  if bool_decide (origRoomId w = "") then []
  else
    match reply with
    | None => []
    | Some r =>
        match connectRoom (agent_token r) (media w) with
        | None => []
        | Some (h, m) =>
            let w1 := setMedia m w in
            [w1; setStatus "agent_a_connected" (setAgentARoom (Some h) w1)]
        end
    end.

(** Agent A and then Agent B join the transfer room; the handle of the
    connection Agent A already holds is overwritten, not closed. *)
Definition initiateTransfer (reply : option TransferResp) (w : World) : list World :=
  if bool_decide (origRoomId w = "") then []
  else
    match reply with
    | None => []
    | Some r =>
        let w1 := setSummary (call_summary r) (setTransferInfo (Some r) w) in
        match connectRoom (agent_a_token r) (media w1) with
        | None => [w1]
        | Some (ha, ma) =>
            let w2 := setAgentARoom (Some ha) (setMedia ma w1) in
            match connectRoom (agent_b_token r) (media w2) with
            | None => [w1; w2]
            | Some (hb, mb) =>
                let w3 := setMedia mb w2 in
                [w1; w2; w3;
                 setStatus "transfer_room_connected" (setAgentBRoom (Some hb) w3)]
            end
        end
    end.

(** [track] is the handle of the track made by [createLocalAudioTrack]. *)
Definition speakSummaryViaMic (track : nat) (w : World) : list World :=
  match agentARoom w with
  | None => []
  | Some h =>
      if bool_decide (summary w = "") then []
      else [setAgentATrack (Some track)
              (setMedia (publishTrack h track (media w)) w)]
  end.

Definition leaveTransferAndComplete (reply : option CompleteReply) (w : World)
    : list World :=
  if bool_decide (origRoomId w = "") then []
  else
    match transferInfo w, reply with
    | None, _ => []
    | Some _, None => []
    | Some _, Some r =>
        (* the request has been served *)
        let w1 := setMedia (server_remove (room_id (resp r)) (removed r) (media w)) w in
        let agentBOrigToken := ct_agent_b_token (resp r) in
        (* Agent B leaves the transfer room *)
        let w2 :=
          match agentBRoom w with
          | Some hb => setAgentBRoom None (setMedia (disconnect hb (media w1)) w1)
          | None => w1
          end in
        (* and joins with the token of the reply *)
        match connectRoom agentBOrigToken (media w2) with
        | None => [w1; w2]
        | Some (h, m) =>
            let w3 := setAgentBRoom (Some h) (setMedia m w2) in
            let w4 :=
              match agentARoom w with
              | Some ha =>
                  let w3' :=
                    match agentATrack w with
                    | Some t =>
                        setAgentATrack None
                          (setMedia (unpublishTrack ha t (media w3)) w3)
                    | None => w3
                    end in
                  setAgentARoom None (setMedia (disconnect ha (media w3')) w3')
              | None => w3
              end in
            [w1; w2; w3; w4; setStatus "transfer_completed" w4]
        end
    end.

End Page.

(** The world a handler leaves behind. *)
Definition after (tr : list World) (w : World) : World := List.last tr w.

(** The identities the page asks the backend for. *)
Definition caller_id : string := "demoCaller".
Definition agent_a_id : string := "A1".
Definition agent_b_id : string := "B1".

(** Identity [id] is connected to room [r]. *)
Definition joined (r id : string) (w : World) : bool :=
  existsb (fun c => bool_decide (tk_room (who c) = r)
                    && bool_decide (tk_identity (who c) = id))
          (live (media w)).

(** Room [r] holds an agent. *)
Definition has_agent (r : string) (w : World) : bool :=
  joined r agent_a_id w || joined r agent_b_id w.



End DemoPage.

(** ** The call interface *)

Module CallUi.

(** *** The staged transfer display *)

Inductive Stage : Type := requested | briefing | connecting | completed.

#[global] Instance Stage_eq_dec : EqDecision Stage.
Proof. solve_decision. Defined.

(** What a timer of the component does when it fires. *)
Inductive callback : Type :=
| IncElapsed     (* setTimeElapsed((prev) => prev + 1) *)
| ToBriefing     (* the body of [stageTimer] *)
| ToConnecting   (* the timeout set by [ToBriefing] *)
| ToCompleted.   (* the timeout set by [ToConnecting] *)

(** A pending timer: [every] is the period of a [setInterval], [None] for
    a [setTimeout].  Times are in milliseconds. *)
Record Timer : Type := mkTimer {
  tid : nat;
  due : N;
  every : option N;
  run_cb : callback
}.

(** A mounted [TransferStatus]: its prop, its two state variables, the
    clock, its pending timers and the cleanup of its last effect (the
    handles [timer] and [stageTimer]). *)
Record TransferStatus : Type := mkTransferStatus {
  isTransferRequested : bool;
  transferStage : Stage;
  timeElapsed : N;
  now : N;
  timers : list Timer;
  next_tid : nat;
  cleanup : option (nat * nat)
}.

Definition setTransferStage (s : Stage) (c : TransferStatus) : TransferStatus :=
  mkTransferStatus (isTransferRequested c) s (timeElapsed c) (now c)
                   (timers c) (next_tid c) (cleanup c).
Definition setTimeElapsed (n : N) (c : TransferStatus) : TransferStatus :=
  mkTransferStatus (isTransferRequested c) (transferStage c) n (now c)
                   (timers c) (next_tid c) (cleanup c).

(** [setTimeout] / [setInterval]: the new handle and the component. *)
Definition schedule (delay : N) (period : option N) (cb : callback)
    (c : TransferStatus) : nat * TransferStatus :=
  (next_tid c,
   mkTransferStatus (isTransferRequested c) (transferStage c) (timeElapsed c)
     (now c)
     (timers c ++ [mkTimer (next_tid c) (now c + delay) period cb])%list
     (S (next_tid c)) (cleanup c)).

(** [clearTimeout] / [clearInterval]. *)
Definition clear (h : nat) (c : TransferStatus) : TransferStatus :=
  mkTransferStatus (isTransferRequested c) (transferStage c) (timeElapsed c)
     (now c) (List.filter (fun t => negb (Nat.eqb (tid t) h)) (timers c))
     (next_tid c) (cleanup c).

Definition set_cleanup (k : option (nat * nat)) (c : TransferStatus) : TransferStatus :=
  mkTransferStatus (isTransferRequested c) (transferStage c) (timeElapsed c)
     (now c) (timers c) (next_tid c) k.

(** The effect of the component, run at mount and when the prop changes:
    first the cleanup of the previous run, then the body. *)
Definition effect (c : TransferStatus) : TransferStatus :=
  let c :=
    match cleanup c with
    | Some (timer, stageTimer) => set_cleanup None (clear stageTimer (clear timer c))
    | None => c
    end in
  if negb (isTransferRequested c) then
    setTimeElapsed 0 (setTransferStage requested c)
  else
    let '(timer, c) := schedule 1000 (Some 1000%N) IncElapsed c in
    let '(stageTimer, c) := schedule 2000 None ToBriefing c in
    set_cleanup (Some (timer, stageTimer)) c.

(** A component that has just been mounted; its clock [now] counts the
    milliseconds since then. *)
Definition mount (prop : bool) : TransferStatus :=
  effect (mkTransferStatus prop requested 0 0 [] 0 None).

(** The parent renders the component with another prop. *)
Definition set_prop (prop : bool) (c : TransferStatus) : TransferStatus :=
  if bool_decide (prop = isTransferRequested c) then c
  else
    effect (mkTransferStatus prop (transferStage c) (timeElapsed c) (now c)
                             (timers c) (next_tid c) (cleanup c)).

Definition fire (cb : callback) (c : TransferStatus) : TransferStatus :=
  match cb with
  | IncElapsed => setTimeElapsed (timeElapsed c + 1) c
  | ToBriefing => snd (schedule 5000 None ToConnecting (setTransferStage briefing c))
  | ToConnecting => snd (schedule 3000 None ToCompleted (setTransferStage connecting c))
  | ToCompleted => setTransferStage completed c
  end.

(** One millisecond passes: the timers that are due fire in the order in
    which they were set; an interval is set again, a timeout is gone. *)
Definition tick (c : TransferStatus) : TransferStatus :=
  let t := (now c + 1)%N in
  let dues := List.filter (fun tm => N.eqb (due tm) t) (timers c) in
  let kept :=
    omap (fun tm =>
            if N.eqb (due tm) t then
              match every tm with
              | Some p => Some (mkTimer (tid tm) (t + p) (every tm) (run_cb tm))
              | None => None
              end
            else Some tm)
         (timers c) in
  fold_left (fun c tm => fire (run_cb tm) c) dues
    (mkTransferStatus (isTransferRequested c) (transferStage c) (timeElapsed c)
                      t kept (next_tid c) (cleanup c)).

(** [n] milliseconds pass and nothing else happens. *)
Definition elapse (n : N) (c : TransferStatus) : TransferStatus :=
  N.iter n tick c.

(** Every pending timer that would change the stage is due later than [n]
    milliseconds from now. *)
Definition quiet_for (n : N) (c : TransferStatus) : Prop :=
  Forall (fun tm => run_cb tm = IncElapsed \/ (now c + n < due tm)%N) (timers c).


(** *** The call room *)

Record Toast : Type := mkToast {
  title : string;
  description : string;
  variant : option string
}.

(** The state of [CallRoomContent] and its [TransferStatus] child, which is
    mounted exactly while [isTransferRequested] holds. *)
Record CallRoom : Type := mkCallRoom {
  transferRequested : bool;
  toasts : list Toast;
  panel : option TransferStatus
}.

(** Rendering after a state change mounts or unmounts the child. *)
Definition render (transferRequested : bool) (toasts : list Toast)
    (panel : option TransferStatus) : CallRoom :=
  mkCallRoom transferRequested toasts
    (if transferRequested then
       match panel with
       | Some c => Some c
       | None => Some (mount true)
       end
     else None).

Definition toast (t : Toast) (r : CallRoom) : CallRoom :=
  mkCallRoom (transferRequested r) (toasts r ++ [t])%list (panel r).

Definition setIsTransferRequested (b : bool) (r : CallRoom) : CallRoom :=
  render b (toasts r) (panel r).


(** The start of [handleTransferRequest], up to its [fetch]. *)
Definition handleTransferRequest_start (r : CallRoom) : CallRoom :=
  toast (mkToast "Transfer Requested" "Requesting transfer to Agent B..." None)
        (setIsTransferRequested true r).

(** The rest of [handleTransferRequest]: [None] is a request that went
    well, [Some msg] one that failed with that message. *)
Definition handleTransferRequest_end (failure : option string) (r : CallRoom) : CallRoom :=
  match failure with
  | None =>
      toast (mkToast "Transfer Initiated"
               "Agent A is briefing Agent B about your conversation" None) r
  | Some msg =>
      toast (mkToast "Transfer Failed" msg (Some "destructive"))
            (setIsTransferRequested false r)
  end.

(** Time passes in the call room. *)
Definition wait (n : N) (r : CallRoom) : CallRoom :=
  mkCallRoom (transferRequested r) (toasts r) (elapse n <$> panel r).

(** The call room before any transfer is asked for. *)
Definition quiet : CallRoom := mkCallRoom false [] None.

(** Time alone never moves the stage of the component. *)
Definition event_driven (c : TransferStatus) : Prop :=
  forall n, transferStage (elapse n c) = transferStage c.


(** *** Agents and customers *)

(** [s.includes(sub)]. *)
Fixpoint includes (sub s : string) : bool :=
  String.prefix sub s
  || match s with
     | EmptyString => false
     | String _ s' => includes sub s'
     end.

Record Participant : Type := mkParticipant {
  identity : string;
  isSpeaking : bool
}.

(** The two lists of [CallRoomContent]; [ParticipantMonitor] filters in the
    same way. *)
Definition agents (participants : list Participant) : list Participant :=
  List.filter (fun p => includes "agent" (identity p)) participants.
Definition customers (participants : list Participant) : list Participant :=
  List.filter (fun p => negb (includes "agent" (identity p))) participants.

(** The name shown for a member of [agents]. *)
Definition agent_label (p : Participant) : string :=
  if bool_decide (identity p = "agent-a") then "Agent A" else "Agent B".

(** The connection quality shown by [ParticipantMonitor]; [rnd] is the
    outcome of [Math.random() > 0.8]. *)
Definition connectionQuality (rnd : bool) (p : Participant) : string :=
  if includes "agent" (identity p) then "excellent"
  else if rnd then "poor" else "good".

(** Modelled from the spec: the tagged role of a participant, set when its
    grant is issued.  No component of the sources has such a field; a
    participant is seen by the components as its [Participant] only. *)
Inductive Role : Type := Caller | AgentPrimary | AgentTransfer.

Record Member : Type := mkMember {
  role : Role;
  seen : Participant
}.

(** No caller is listed among the agents. *)
Definition callers_not_agents (members : list Member) : Prop :=
  forall m, m ∈ members -> role m = Caller ->
            seen m ∉ agents (seen <$> members).

End CallUi.

(** ** The transfer state table *)

Module Orchestrator.

(** Modelled from the spec: the transfer state machine of the orchestration
    core (states, the table of next states, what entering a state stores
    and which grants are issued on the way).  The backend that runs
    transfers is not among the sources; only its replies are, as the
    response types of [DemoPage]. *)
Inductive State : Type :=
| Requested | Briefing | SummaryReady | AwaitingAgentB
| HandingOff | Completed | Cancelled | Failed.

#[global] Instance State_eq_dec : EqDecision State.
Proof. solve_decision. Defined.

(** Modelled from the spec: the column "next states" of the table. *)
Definition next_states (s : State) : list State :=
  match s with
  | Requested => [Briefing; Cancelled]
  | Briefing => [SummaryReady; Failed]
  | SummaryReady => [AwaitingAgentB; Failed]
  | AwaitingAgentB => [HandingOff; Cancelled; Failed]
  | HandingOff => [Completed; Failed]
  | Completed | Cancelled | Failed => []
  end.

(** Modelled from the spec: a grant admits one identity to one room. *)
Record Grant : Type := mkGrant { subject : string; granted_room : string }.

#[global] Instance Grant_eq_dec : EqDecision Grant.
Proof. solve_decision. Defined.

(** Modelled from the spec: a transfer with the grants issued for it. *)
Record Transfer : Type := mkTransfer {
  state : State;
  agentA : string;
  agentB : string;
  originalRoom : string;
  briefingRoom : string;
  summary : option string;
  grants : list Grant
}.

(** Modelled from the spec: what makes a transfer move.  Each signal comes
    from outside; none is a timeout. *)
Inductive signal : Type :=
| BriefingRoomCreated           (* room made, Agent A's grant issued *)
| SummaryObtained (text : string)
| AgentBInvited                 (* Agent B's grant for the briefing room *)
| CompleteTransfer              (* the explicit request *)
| HandoffConfirmed              (* Agent B granted the call and joined,
                                   Agent A removed *)
| CancelTransfer
| ErrorRaised.

(** Modelled from the spec: a new transfer is [Requested]. *)
Definition requestTransfer (a b original briefing : string) : Transfer :=
  mkTransfer Requested a b original briefing None [].

Definition enter (s : State) (t : Transfer) : Transfer :=
  mkTransfer s (agentA t) (agentB t) (originalRoom t) (briefingRoom t)
             (summary t) (grants t).
Definition issue (g : Grant) (t : Transfer) : Transfer :=
  mkTransfer (state t) (agentA t) (agentB t) (originalRoom t) (briefingRoom t)
             (summary t) (grants t ++ [g])%list.
Definition store_summary (text : string) (t : Transfer) : Transfer :=
  mkTransfer (state t) (agentA t) (agentB t) (originalRoom t) (briefingRoom t)
             (Some text) (grants t).

(** Modelled from the spec: one transition; [None] is [InvalidStateError],
    the transfer stays as it is. *)
Definition step (t : Transfer) (s : signal) : option Transfer :=
  match state t, s with
  | Requested, BriefingRoomCreated =>
      Some (enter Briefing (issue (mkGrant (agentA t) (briefingRoom t)) t))
  | Requested, CancelTransfer => Some (enter Cancelled t)
  | Briefing, SummaryObtained text => Some (enter SummaryReady (store_summary text t))
  | Briefing, ErrorRaised => Some (enter Failed t)
  | SummaryReady, AgentBInvited =>
      Some (enter AwaitingAgentB (issue (mkGrant (agentB t) (briefingRoom t)) t))
  | SummaryReady, ErrorRaised => Some (enter Failed t)
  | AwaitingAgentB, CompleteTransfer => Some (enter HandingOff t)
  | AwaitingAgentB, CancelTransfer => Some (enter Cancelled t)
  | AwaitingAgentB, ErrorRaised => Some (enter Failed t)
  | HandingOff, HandoffConfirmed =>
      Some (enter Completed (issue (mkGrant (agentB t) (originalRoom t)) t))
  | HandingOff, ErrorRaised => Some (enter Failed t)
  | _, _ => None
  end.

(** The transfers a sequence of signals leads through, the first one
    included; a refused signal changes nothing. *)
Fixpoint history (t : Transfer) (ss : list signal) : list Transfer :=
  match ss with
  | [] => [t]
  | s :: rest =>
      match step t s with
      | Some t' => t :: history t' rest
      | None => history t rest
      end
  end.

(** Agent B holds a grant for the briefing room. *)
Definition invited (t : Transfer) : Prop :=
  mkGrant (agentB t) (briefingRoom t) ∈ grants t.

(** The states that are entered with the summary in hand. *)
Definition needs_summary (s : State) : bool :=
  match s with
  | SummaryReady | AwaitingAgentB | HandingOff | Completed => true
  | _ => false
  end.

(** While there is no summary the transfer is in none of these states and
    only Agent A holds a grant. *)
Definition summarised (t : Transfer) : Prop :=
  summary t = None ->
  needs_summary (state t) = false
  /\ Forall (fun g => g = mkGrant (agentA t) (briefingRoom t)) (grants t).

End Orchestrator.

(** ** Sample inputs *)

Module Samples.

Import TokenApi.

(** An SDK that signs when it has a key and a secret. *)
Definition sample_toJwt (a : AccessToken) : option string :=
  match at_apiKey a, at_apiSecret a with
  | Some k, Some s =>
      if bool_decide (k = "") || bool_decide (s = "") then None
      else Some ("jwt-" ++ k)
  | _, _ => None
  end.

Definition full_env : env :=
  <["LIVEKIT_API_KEY" := "key"]>
    (<["LIVEKIT_API_SECRET" := "secret"]>
       (<["NEXT_PUBLIC_LIVEKIT_URL" := "ws://localhost:7880"]>
          (<["LIVEKIT_URL" := "http://localhost:7880"]> ∅))).


Definition token_request (room identity : string) : option json :=
  Some (JObj [("room", JStr room); ("identity", JStr identity)]).

Definition up (_ : string) : bool := true.
Definition down (_ : string) : bool := false.

(** An SDK that throws on every token. *)
Definition broken_toJwt (_ : AccessToken) : option string := None.

Import DemoPage.

(** A media server that lets every token in. *)
Definition everyone (_ : token) : bool := true.

(** The demo up to the transfer: the caller calls ("Initiate Call"), Agent
    A joins the call ("Connect Agent A"), the transfer is started ("Initiate
    transfer"); the backend answers with tokens for the identities the page
    names, room [R1] for the call and room [R2] for the briefing. *)
Definition call_started : World :=
  after (initiateCall everyone
           (Some (mkInitiateResp "R1" (mkToken caller_id "R1"))) initial)
        initial.
Definition agentA_connected : World :=
  after (connectAgentA everyone
           (Some (mkConnectAgentResp "R1" (mkToken agent_a_id "R1")))
           call_started)
        call_started.
Definition in_transfer : World :=
  after (initiateTransfer everyone
           (Some (mkTransferResp "R1" "R2" (mkToken agent_a_id "R2")
                    (mkToken agent_b_id "R2") "forgot password"))
           agentA_connected)
        agentA_connected.

End Samples.

(** ** What the transfer display shows *)

Module Display.

Import CallUi.

(** [n.toString()] of a non-negative integer. *)
Definition digits (n : N) : string := NilZero.string_of_uint (N.to_uint n).

(** [s.padStart(targetLength, pad)] for a pad string of one character. *)
Definition padStart (targetLength : nat) (pad : Ascii.ascii) (s : string) : string :=
  String.string_of_list_ascii (repeat pad (targetLength - String.length s)) ++ s.

(** [formatTime] of [TransferStatus]; [formatDuration] of
    [ParticipantMonitor] is the same function. *)
Definition formatTime (seconds : N) : string :=
  let mins := (seconds / 60)%N in
  let secs := (seconds mod 60)%N in
  digits mins ++ ":" ++ padStart 2 "0"%char (digits secs).

Definition formatDuration (seconds : N) : string := formatTime seconds.

(** The title and the description of [getStageInfo]. *)
Definition stage_title (s : Stage) : string :=
  match s with
  | requested => "Transfer Requested"
  | briefing => "Agent Briefing"
  | connecting => "Connecting to Agent B"
  | completed => "Transfer Complete"
  end.

Definition stage_description (s : Stage) : string :=
  match s with
  | requested => "Waiting for Agent B to join..."
  | briefing => "Agent A is briefing Agent B about your conversation"
  | connecting => "Agent A is leaving, Agent B is taking over"
  | completed => "You are now connected to Agent B"
  end.

(** The text before "steps" in "Transfer Progress". *)
Definition progress_label (s : Stage) : string :=
  if bool_decide (s = completed) then "4/4"
  else if bool_decide (s = connecting) then "3/4"
  else if bool_decide (s = briefing) then "2/4"
  else "1/4".

(** [isActive] of the progress bar, for one of the steps 1 to 4. *)
Definition isActive (s : Stage) (step : nat) : bool :=
  Nat.eqb step 1
  || (Nat.eqb step 2 && bool_decide (s ∈ [briefing; connecting; completed]))
  || (Nat.eqb step 3 && bool_decide (s ∈ [connecting; completed]))
  || (Nat.eqb step 4 && bool_decide (s = completed)).

(** The four bars, left to right. *)
Definition progress_bars (s : Stage) : list bool := map (isActive s) [1; 2; 3; 4]%nat.

(** What a mounted [TransferStatus] renders: nothing without a request,
    else the stage, the clock in the badge and whether the cancel button
    and the success badge are there. *)
Record Card : Type := mkCard {
  card_title : string;
  card_description : string;
  card_clock : string;
  card_progress : string;
  card_bars : list bool;
  card_cancel : bool;
  card_done : bool
}.

Definition render_status (c : TransferStatus) : option Card :=
  if negb (isTransferRequested c) then None
  else
    Some (mkCard (stage_title (transferStage c))
                 (stage_description (transferStage c))
                 (formatTime (timeElapsed c))
                 (progress_label (transferStage c))
                 (progress_bars (transferStage c))
                 (bool_decide (transferStage c = requested))
                 (bool_decide (transferStage c = completed))).

(** The place of a stage in the order of the display. *)
Definition stage_rank (s : Stage) : nat :=
  match s with
  | requested => 1
  | briefing => 2
  | connecting => 3
  | completed => 4
  end.

(** The reading of a clock text: minutes, a colon, seconds. *)
Fixpoint split_colon (s : string) : option (string * string) :=
  match s with
  | EmptyString => None
  | String c rest =>
      if Ascii.eqb c ":"%char then Some (EmptyString, rest)
      else
        match split_colon rest with
        | Some (a, b) => Some (String c a, b)
        | None => None
        end
  end.

Definition read_clock (s : string) : option N :=
  match split_colon s with
  | Some (m, r) =>
      match NilZero.uint_of_string m, NilZero.uint_of_string r with
      | Some dm, Some dr => Some (N.of_uint dm * 60 + N.of_uint dr)%N
      | _, _ => None
      end
  | None => None
  end.

(** The seconds field of a clock text reads back, and has two digits. *)
Definition seconds_field_ok (r : N) : bool :=
  bool_decide (N.of_uint <$> NilZero.uint_of_string (padStart 2 "0"%char (digits r))
               = Some r)
  && Nat.eqb (String.length (padStart 2 "0"%char (digits r))) 2.

(** A display with its clock set to [t]. *)
Definition at_time (t : N) (c : TransferStatus) : TransferStatus :=
  mkTransferStatus (isTransferRequested c) (transferStage c) (timeElapsed c) t
                   (timers c) (next_tid c) (cleanup c).

(** The callback of the interval. *)
Definition counts (cb : callback) : bool :=
  match cb with
  | IncElapsed => true
  | _ => false
  end.

(** The timers of a display that counts: the interval is the only timer
    that counts, it is due at [d], and the other timers are timeouts. *)
Definition counting (d : N) (l : list Timer) : Prop :=
  Forall (fun tm =>
            (counts (run_cb tm) = true /\ every tm = Some 1000%N /\ due tm = d)
            \/ (counts (run_cb tm) = false /\ every tm = None)) l
  /\ length (List.filter (fun tm => counts (run_cb tm)) l) = 1%nat.

(** The clock of the display is in step with its interval. *)
Definition in_step (c : TransferStatus) : Prop :=
  counting (1000 * (timeElapsed c + 1)) (timers c)
  /\ (now c < 1000 * (timeElapsed c + 1) <= now c + 1000)%N.

End Display.

(** ** Answers as a client reads them *)

Module Http.

(** The body of an answer as [response.json()] gives it: the value, or
    the message of the error it throws. *)
Inductive parsed : Type :=
| Parsed (j : json)
| Unparsable (message : string).

Record HttpResponse : Type := mkHttpResponse {
  http_status : nat;
  http_body : parsed
}.

(** [response.ok]. *)
Definition ok (r : HttpResponse) : bool :=
  (200 <=? http_status r)%nat && (http_status r <=? 299)%nat.

(** What [await fetch(...)] gives: an answer, or the message of the error
    it rejects with. *)
Inductive fetched : Type :=
| Answer (r : HttpResponse)
| NetworkError (message : string).

(** [String(v)] for a parsed value; an array joins its elements with
    commas and shows [null] elements as nothing. *)
Fixpoint js_string (j : json) : string :=
  match j with
  | JNull => "null"
  | JBool true => "true"
  | JBool false => "false"
  | JNum n => NilZero.string_of_int (Z.to_int n)
  | JStr s => s
  | JArr xs =>
      (fix join (l : list json) : string :=
         match l with
         | [] => ""
         | [x] => match x with JNull => "" | _ => js_string x end
         | x :: rest =>
             match x with JNull => "" | _ => js_string x end ++ "," ++ join rest
         end) xs
  | JObj _ => "[object Object]"
  end.

(** Reading property [p] of a parsed value: [None] when the read throws
    (the value is [null]), else the property, [undefined] on anything that
    is not an object. *)
Definition read (p : string) (j : json) : option jsval :=
  match j with
  | JNull => None
  | JObj fs => Some (field p fs)
  | _ => Some None
  end.

(** The JSON of [NextResponse.json(...)] for the answers of the token
    routes. *)
Definition token_json (b : TokenApi.body) : json :=
  match b with
  | TokenApi.ErrorBody msg => JObj [("error", JStr msg)]
  | TokenApi.TokenBody t => JObj [("token", JStr t)]
  | TokenApi.RoomTokenBody r t => JObj [("roomName", JStr r); ("token", JStr t)]
  end.

Definition serve_token (r : TokenApi.response) : HttpResponse :=
  mkHttpResponse (TokenApi.status r) (Parsed (token_json (TokenApi.payload r))).

End Http.

(** ** The transfer request route *)

Module TransferRoute.

Import TokenApi.

(** What the backend does with the forwarded request: it answers, well or
    not, or the [fetch] throws; [err] is [String(err)]. *)
Inductive backend_reply : Type :=
| Responded (ok : bool)
| Rejected (err : string).

(** One request to the backend: where it goes and the [room] of its body
    ([None] when [JSON.stringify] leaves the property out). *)
Record backend_call : Type := mkBackendCall {
  call_url : string;
  call_room : jsval
}.

Inductive route_body : Type :=
| Failed (error : string)
| Done.

Record route_response : Type := mkRouteResponse {
  route_payload : route_body;
  route_status : nat
}.

(** [process.env.BACKEND_CONTROL_URL || "http://localhost:8000"]. *)
Definition backendUrl (e : env) : string :=
  match e !! "BACKEND_CONTROL_URL" with
  | Some u => if bool_decide (u = "") then "http://localhost:8000" else u
  | None => "http://localhost:8000"
  end.

(** The route.  The body is read before the [try]: an exception there
    leaves the handler. *)
Definition POST (backend : backend_call -> backend_reply) (e : env)
    (request : option json) : outcome route_response * list backend_call :=
  match request with
  | None => (Throw "invalid json", [])
  | Some JNull => (Throw "TypeError", [])
  | Some j =>
      let room := match j with JObj fs => field "room" fs | _ => None end in
      let c := mkBackendCall (backendUrl e ++ "/api/request-transfer") room in
      match backend c with
      | Responded ok =>
          if negb ok then (Ret (mkRouteResponse (Failed "backend failed") 502), [c])
          else (Ret (mkRouteResponse Done 200), [c])
      | Rejected err => (Ret (mkRouteResponse (Failed err) 500), [c])
      end
  end.

(** The [room] the route reads from a body. *)
Definition forwarded_room (j : json) : jsval :=
  match j with
  | JObj fs => field "room" fs
  | _ => None
  end.

Definition route_json (b : route_body) : json :=
  match b with
  | Failed msg => JObj [("error", JStr msg)]
  | Done => JObj [("ok", JBool true)]
  end.

Definition serve (r : route_response) : Http.HttpResponse :=
  Http.mkHttpResponse (route_status r) (Http.Parsed (route_json (route_payload r))).

End TransferRoute.

(** ** The call screen *)

Module CallScreen.

Import CallUi Http.

(** The state of [CallInterface]. *)
Record CallInterface : Type := mkCallInterface {
  token : jsval;
  isLoading : bool;
  error : string;
  shown : list Toast
}.

Definition loading : CallInterface :=
  mkCallInterface (Some (JStr "")) true "" [].

(** The double quote. *)
Definition dquote : string := String (Ascii.ascii_of_nat 34) EmptyString.

Section GetToken.

(** The message of the [TypeError] thrown by reading a property of
    [null]; it depends on the engine. *)
Variable null_read : string -> string.

(** The outcome of the [try] block of [getToken]: the value handed to
    [setToken], or the message of the error caught. *)
Definition token_of (f : fetched) : jsval + string :=
  match f with
  | NetworkError message => inr message
  | Answer r =>
      if negb (ok r) then
        (* errorData = await response.json().catch(() => ({})) *)
        let errorData :=
          match http_body r with
          | Parsed j => j
          | Unparsable _ => JObj []
          end in
        match read "error" errorData with
        | None => inr (null_read "error")
        | Some e =>
            if truthy e then inr (js_string (default JNull e))
            else inr ("HTTP " ++ Display.digits (N.of_nat (http_status r))
                      ++ ": Failed to get token")
        end
      else
        match http_body r with
        | Unparsable message => inr message
        | Parsed data =>
            match read "token" data with
            | None => inr (null_read "token")
            | Some t => inl t
            end
        end
  end.

(** [getToken], from the answer of the [fetch] on. *)
Definition getToken (room identity : string) (f : fetched) (c : CallInterface)
    : CallInterface :=
  match token_of f with
  | inl t =>
      mkCallInterface t false (error c)
        (shown c ++
         [mkToast "Connected Successfully"
                  ("Joined room " ++ dquote ++ room ++ dquote ++ " as " ++ identity)
                  None])%list
  | inr errorMessage =>
      mkCallInterface (token c) false errorMessage
        (shown c ++
         [mkToast "Connection Failed" errorMessage (Some "destructive")])%list
  end.

End GetToken.

(** What [CallInterface] renders. *)
Inductive View : Type :=
| Spinner
| ErrorCard (message : string)
| ConfigurationCard
| Room (token : jsval) (serverUrl : string).

(** [serverUrl] is [process.env.NEXT_PUBLIC_LIVEKIT_URL]. *)
Definition view (serverUrl : option string) (c : CallInterface) : View :=
  if isLoading c then Spinner
  else if negb (bool_decide (error c = "")) then ErrorCard (error c)
  else
    match serverUrl with
    | None => ConfigurationCard
    | Some u => if bool_decide (u = "") then ConfigurationCard else Room (token c) u
    end.

(** The body [JSON.stringify({ room, identity })] of the requests of the
    call screen. *)
Definition request_body (room identity : string) : option json :=
  Some (JObj [("room", JStr room); ("identity", JStr identity)]).

(** *** The home page *)

Record Home : Type := mkHome {
  home_room : string;
  home_identity : string;
  isConnected : bool
}.

Section HomePage.

(** [s.trim()]. *)
Variable trim : string -> string.

Definition handleConnect (h : Home) : Home :=
  if negb (bool_decide (trim (home_room h) = ""))
     && negb (bool_decide (trim (home_identity h) = ""))
  then mkHome (home_room h) (home_identity h) true
  else h.

Definition handleDisconnect (h : Home) : Home :=
  mkHome (home_room h) (home_identity h) false.

(** The "Connect to Agent" button is disabled. *)
Definition connect_disabled (h : Home) : bool :=
  bool_decide (trim (home_room h) = "") || bool_decide (trim (home_identity h) = "").

End HomePage.

(** A [trim] for the blanks of ASCII. *)
Fixpoint trim_start (s : string) : string :=
  match s with
  | String c rest =>
      if existsb (Ascii.eqb c) [" "%char; Ascii.ascii_of_nat 9; Ascii.ascii_of_nat 10;
                                Ascii.ascii_of_nat 11; Ascii.ascii_of_nat 12;
                                Ascii.ascii_of_nat 13]
      then trim_start rest else s
  | EmptyString => EmptyString
  end.

Definition ascii_trim (s : string) : string :=
  String.rev (trim_start (String.rev (trim_start s))).

(** *** The transfer request of the call room *)

(** The outcome of the [try] block of [handleTransferRequest] after its
    [fetch]: [None] when it went well, else the message of the error. *)
Definition transfer_failure (null_read : string -> string) (f : fetched)
    : option string :=
  match f with
  | NetworkError message => Some message
  | Answer r =>
      if negb (ok r) then
        let errorData :=
          match http_body r with
          | Parsed j => j
          | Unparsable _ => JObj []
          end in
        match read "error" errorData with
        | None => Some (null_read "error")
        | Some e =>
            if truthy e then Some (js_string (default JNull e))
            else Some "Failed to request transfer"
        end
      else
        match http_body r with
        | Unparsable message => Some message
        | Parsed _ => None
        end
  end.

(** [handleTransferRequest], whole: the request is marked, the answer
    comes [n] milliseconds later. *)
Definition handleTransferRequest (null_read : string -> string) (n : N)
    (f : fetched) (r : CallRoom) : CallRoom :=
  handleTransferRequest_end (transfer_failure null_read f)
    (wait n (handleTransferRequest_start r)).

(** The "Request Transfer to Agent B" buttons are disabled. *)
Definition request_disabled (participants : list Participant) (r : CallRoom) : bool :=
  transferRequested r || Nat.eqb (length (agents participants)) 0.

End CallScreen.

(** ** The participant monitor *)

Module Monitor.

Import CallUi.

Record ParticipantActivity : Type := mkActivity {
  activity_identity : string;
  joinedAt : N;
  lastSpoke : option N;
  speakingDuration : N;
  connectionQuality : string
}.

(** What one run of the effect reads from outside: the time of its k-th
    [new Date()] and whether its k-th [Math.random()] is above 0.8. *)
Record Readings : Type := mkReadings {
  date : nat -> N;
  random_high : nat -> bool
}.

(** The map under construction and the readings used so far. *)
Record Run : Type := mkRun {
  activities : gmap string ParticipantActivity;
  dates : nat;
  randoms : nat
}.

(** The body of [participants.forEach]. *)
Definition visit (w : Readings) (r : Run) (p : Participant) : Run :=
  (* the entry of the participant, made now when there is none *)
  let '(a, d) :=
    match activities r !! identity p with
    | Some a => (a, dates r)
    | None => (mkActivity (identity p) (date w (dates r)) None 0 "good",
               S (dates r))
    end in
  (* speaking *)
  let '(a, d) :=
    if isSpeaking p && negb (bool_decide (is_Some (lastSpoke a))) then
      (mkActivity (activity_identity a) (joinedAt a) (Some (date w d))
                  (speakingDuration a) (connectionQuality a), S d)
    else if isSpeaking p then
      (mkActivity (activity_identity a) (joinedAt a) (lastSpoke a)
                  (speakingDuration a + 1) (connectionQuality a), d)
    else (a, d) in
  (* connection quality *)
  let '(a, k) :=
    if includes "agent" (identity p) then
      (mkActivity (activity_identity a) (joinedAt a) (lastSpoke a)
                  (speakingDuration a) "excellent", randoms r)
    else
      (mkActivity (activity_identity a) (joinedAt a) (lastSpoke a)
                  (speakingDuration a)
                  (if random_high w (randoms r) then "poor" else "good"),
       S (randoms r)) in
  mkRun (<[identity p := a]> (activities r)) d k.

(** The effect that tracks the participants: the new value of
    [participantActivities]. *)
Definition track (w : Readings) (participantActivities : gmap string ParticipantActivity)
    (participants : list Participant) : gmap string ParticipantActivity :=
  activities (fold_left (visit w) participants (mkRun participantActivities 0 0)).

(** The connection quality that goes with an identity. *)
Definition quality_fits (id : string) (a : ParticipantActivity) : Prop :=
  if includes "agent" id then connectionQuality a = "excellent"
  else connectionQuality a = "good" \/ connectionQuality a = "poor".

(** An entry has been carried over: joined at the same time, spoken no
    less, and its first speaking time kept. *)
Definition carried (a a' : ParticipantActivity) : Prop :=
  activity_identity a' = activity_identity a
  /\ joinedAt a' = joinedAt a
  /\ (speakingDuration a <= speakingDuration a')%N
  /\ (forall t, lastSpoke a = Some t -> lastSpoke a' = Some t).

End Monitor.

(** ** Conditions used below *)

Module Checks.

Import TokenApi.

(** [POST] has all it needs: a room, an identity and the three settings. *)
Definition POST_ready (e : env) (room identity : jsval) : bool :=
  truthy room && truthy identity
  && truthy (of_string (e !! "LIVEKIT_API_KEY"))
  && truthy (of_string (e !! "LIVEKIT_API_SECRET"))
  && truthy (of_string (e !! "NEXT_PUBLIC_LIVEKIT_URL")).

(** [GET] gets as far as the media server: a user and the server's URL. *)
Definition GET_ready (e : env) (userid : option string) : bool :=
  truthy (of_string userid) && truthy (of_string (e !! "LIVEKIT_URL")).

(** The handles of the demo page are in order: every live connection has
    a handle of its own below the next free one, and so has every handle
    the page holds. *)
Definition tidy (w : DemoPage.World) : Prop :=
  Forall (fun c => (DemoPage.cid c < DemoPage.fresh (DemoPage.media w))%nat)
         (DemoPage.live (DemoPage.media w))
  /\ NoDup (DemoPage.cid <$> DemoPage.live (DemoPage.media w))
  /\ (forall h, DemoPage.callerRoom w = Some h \/ DemoPage.agentARoom w = Some h
                 \/ DemoPage.agentBRoom w = Some h ->
                 (h < DemoPage.fresh (DemoPage.media w))%nat).

(** Handle [h] is connected. *)
Definition connected (h : nat) (w : DemoPage.World) : Prop :=
  exists c, In c (DemoPage.live (DemoPage.media w)) /\ DemoPage.cid c = h.

End Checks.

(** * Properties *)

(** ** The token routes *)

Section TokenRoutes.

Import TokenApi.

Variable toJwt : AccessToken -> option string.
Variable transport : string -> bool.

(** A body that cannot be read ends in the [catch] block. *)
Lemma POST_unreadable e request :
  props request = None ->
  run (POST toJwt e request)
  = (Ret (mkResponse (ErrorBody "Failed to generate token") 500),
     [LogError "[v0] Error generating token:"]).
Proof.
  intros H. destruct request as [[]|]; try discriminate; reflexivity.
Qed.

(** The run of [POST] on a body that can be read, branch by branch. *)
Lemma POST_readable e request room identity :
  props request = Some (room, identity) ->
  run (POST toJwt e request)
  = if negb (truthy room) || negb (truthy identity) then
      (Ret (mkResponse (ErrorBody "Room and identity are required") 400),
       [Log "[v0] Token request for room:"; Log "[v0] Missing room or identity"])
    else if negb (truthy (of_string (e !! "LIVEKIT_API_KEY")))
            || negb (truthy (of_string (e !! "LIVEKIT_API_SECRET")))
            || negb (truthy (of_string (e !! "NEXT_PUBLIC_LIVEKIT_URL"))) then
      (Ret (mkResponse (ErrorBody credentials_message) 500),
       [Log "[v0] Token request for room:";
        Log "[v0] Environment check - API Key:";
        Log "[v0] Missing LiveKit credentials"])
    else
      let a := POST_token (e !! "LIVEKIT_API_KEY") (e !! "LIVEKIT_API_SECRET")
                          room identity in
      match toJwt a with
      | Some t =>
          (Ret (mkResponse (TokenBody t) 200),
           [Log "[v0] Token request for room:";
            Log "[v0] Environment check - API Key:";
            Minted a t; Log "[v0] Token generated successfully"])
      | None =>
          (Ret (mkResponse (ErrorBody "Failed to generate token") 500),
           [Log "[v0] Token request for room:";
            Log "[v0] Environment check - API Key:";
            LogError "[v0] Error generating token:"])
      end.
Proof.
  intros H.
  assert (exists j, request = Some j
                    /\ destructure j [] = (Ret (room, identity), []))
    as (j & -> & Hj).
  { destruct request as [[]|]; simpl in H; try discriminate;
      inversion H; subst; eexists; split; reflexivity. }
  unfold run, POST, try_catch.
  cbn -[truthy credentials_message POST_token].
  unfold mbind, M_bind, bind at 1.
  cbn -[truthy credentials_message POST_token].
  unfold bind at 1. rewrite Hj.
  cbn -[truthy credentials_message POST_token].
  destruct (negb (truthy room) || negb (truthy identity)); [reflexivity|].
  cbn -[truthy credentials_message POST_token].
  destruct (_ || _); [reflexivity|].
  cbn -[truthy credentials_message POST_token]. unfold sdk_toJwt.
  destruct (toJwt _); reflexivity.
Qed.

(** The run of [GET], branch by branch. *)
Lemma GET_run e userid uuid :
  run (GET toJwt transport e userid uuid)
  = if negb (truthy (of_string userid)) then
      (Ret None, [Log (default "null" userid); LogError "Error error no user id"])
    else if negb (truthy (of_string (e !! "LIVEKIT_URL"))) then
      (Ret None,
       [Log (default "null" userid); LogError "Error Missing env variable! "])
    else if negb (transport uuid) then
      (Ret None,
       [Log (default "null" userid); CreateRoom uuid false;
        LogError "Error createRoom"])
    else
      match toJwt (GET_token e userid uuid) with
      | Some t =>
          (Ret (Some (mkResponse (RoomTokenBody uuid t) 200)),
           [Log (default "null" userid); CreateRoom uuid true;
            Minted (GET_token e userid uuid) t])
      | None =>
          (Ret None,
           [Log (default "null" userid); CreateRoom uuid true;
            LogError "Error toJwt"])
      end.
Proof.
  unfold run, GET, try_catch. cbn -[truthy GET_token].
  destruct (negb (truthy (of_string userid))); [reflexivity|].
  cbn -[truthy GET_token].
  destruct (negb (truthy (of_string (e !! "LIVEKIT_URL")))); [reflexivity|].
  cbn -[truthy GET_token]. unfold sdk_createRoom.
  destruct (transport uuid); [|reflexivity].
  cbn -[truthy GET_token].
  unfold createaccesstoken, sdk_toJwt. fold (GET_token e userid uuid).
  destruct (toJwt _); reflexivity.
Qed.

End TokenRoutes.

Section TokenProperties.

Import TokenApi.

Variable toJwt : AccessToken -> option string.
Variable transport : string -> bool.



(** C7.  Every token a route issues admits exactly one (identity, room)
    pair: the identity and the room of its request.  One run issues at most
    one token, the answer carries that very token, and so no issuance spans
    two rooms. *)
Theorem grant_authorizes_one_pair (e : env) :
  (forall request r tr a jwt,
      run (POST toJwt e request) = (r, tr) ->
      (a, jwt) ∈ minted tr ->
      exists room identity,
        props request = Some (room, identity)
        /\ authorizes a = [(identity, room)]
        /\ minted tr = [(a, jwt)]
        /\ r = Ret (mkResponse (TokenBody jwt) 200))
  /\ (forall userid uuid r tr a jwt,
         run (GET toJwt transport e userid uuid) = (r, tr) ->
         (a, jwt) ∈ minted tr ->
         authorizes a = [(of_string userid, Some (JStr uuid))]
         /\ minted tr = [(a, jwt)]
         /\ r = Ret (Some (mkResponse (RoomTokenBody uuid jwt) 200))).
Proof.
  split.
  - intros request r tr a jwt Hrun Hin.
    destruct (props request) as [[room identity]|] eqn:Hp.
    + rewrite (POST_readable _ _ _ _ _ Hp) in Hrun.
      exists room, identity. split; [reflexivity|].
      repeat (match type of Hrun with
              | context [if ?b then _ else _] => destruct b
              end);
        try (injection Hrun as <- <-; simpl in Hin; inversion Hin; fail).
      cbv zeta in Hrun. destruct (toJwt _) as [t|];
        injection Hrun as <- <-; simpl in Hin.
      * apply list_elem_of_singleton in Hin. injection Hin as -> ->.
        repeat split; reflexivity.
      * inversion Hin.
    + rewrite (POST_unreadable _ _ _ Hp) in Hrun.
      injection Hrun as <- <-. simpl in Hin. inversion Hin.
  - intros userid uuid r tr a jwt Hrun Hin.
    rewrite GET_run in Hrun.
    repeat (match type of Hrun with
            | context [if ?b then _ else _] => destruct b
            end);
      try (injection Hrun as <- <-; simpl in Hin; inversion Hin; fail).
    destruct (toJwt _) as [t|]; injection Hrun as <- <-; simpl in Hin.
    + apply list_elem_of_singleton in Hin. injection Hin as -> ->.
      repeat split; reflexivity.
    + inversion Hin.
Qed.

(** C10.  Two requests to the token route for the same room that both get
    a token get the same video grant (join, publish, subscribe, publish
    data) and the same "24h" lifetime, whatever their identities. *)
Theorem same_room_same_permissions (e : env) request1 request2 room id1 id2
    t1 t2 tr1 tr2 :
  props request1 = Some (room, id1) ->
  props request2 = Some (room, id2) ->
  run (POST toJwt e request1) = (Ret (mkResponse (TokenBody t1) 200), tr1) ->
  run (POST toJwt e request2) = (Ret (mkResponse (TokenBody t2) 200), tr2) ->
  exists a1 a2,
    minted tr1 = [(a1, t1)] /\ minted tr2 = [(a2, t2)]
    /\ at_identity a1 = id1 /\ at_identity a2 = id2
    /\ at_video a1 = at_video a2
    /\ at_video a1
       = Some {| room := room; roomJoin := Some true; canPublish := Some true;
                 canSubscribe := Some true; canPublishData := Some true;
                 canUpdateOwnMetadata := None |}
    /\ at_ttl a1 = Some "24h" /\ at_ttl a2 = Some "24h".
Proof.
  intros Hp1 Hp2 H1 H2.
  rewrite (POST_readable _ _ _ _ _ Hp1) in H1.
  rewrite (POST_readable _ _ _ _ _ Hp2) in H2.
  destruct (negb (truthy room) || negb (truthy id1)); [discriminate|].
  destruct (negb (truthy room) || negb (truthy id2)); [discriminate|].
  destruct (_ || _); [discriminate|].
  cbv zeta in H1, H2.
  destruct (toJwt (POST_token _ _ room id1)) as [u1|]; [|discriminate].
  destruct (toJwt (POST_token _ _ room id2)) as [u2|]; [|discriminate].
  injection H1 as -> <-. injection H2 as -> <-.
  do 2 eexists. repeat split; reflexivity.
Qed.

(** C4 (as amended).  When the media server refuses [createRoom], the room
    route has called it once and does not call it again, makes no token and
    answers with no room name and no token. *)
Theorem createRoom_failure_no_retry_no_token (e : env) userid uuid :
  truthy (of_string userid) = true ->
  truthy (of_string (e !! "LIVEKIT_URL")) = true ->
  transport uuid = false ->
  exists res tr,
    run (GET toJwt transport e userid uuid) = (res, tr)
    /\ create_calls tr = 1
    /\ (CreateRoom uuid true ∉ tr)
    /\ minted tr = []
    /\ (forall r, res <> Ret (Some r)).
Proof.
  intros Hu Hh Ht. rewrite GET_run, Hu, Hh, Ht. simpl.
  do 2 eexists. split; [reflexivity|].
  split; [reflexivity|]. split; [|split; [reflexivity|discriminate]].
  intros Hin. apply list_elem_of_In in Hin. simpl in Hin.
  destruct Hin as [H|[H|[H|[]]]]; discriminate.
Qed.

End TokenProperties.

Section TokenSamples.

Import TokenApi Samples.






Lemma grant_authorizes_one_pair_witness :
  exists a jwt tr,
    run (POST sample_toJwt full_env (token_request "room-1" "alice"))
    = (Ret (mkResponse (TokenBody jwt) 200), tr)
    /\ (a, jwt) ∈ minted tr
    /\ authorizes a = [(Some (JStr "alice"), Some (JStr "room-1"))].
Proof.
  eexists _, _, _. split; [reflexivity|].
  assert (forall (x : AccessToken * string) l, x ∈ x :: l) as Hhead
    by (intros; apply list_elem_of_In; left; reflexivity).
  split; [apply Hhead|].
  destruct (proj1 (grant_authorizes_one_pair sample_toJwt up full_env)
              (token_request "room-1" "alice") _ _ _ _ eq_refl (Hhead _ _))
    as (room & identity & Hp & Hauth & _).
  injection Hp as <- <-. exact Hauth.
Defined.

Lemma same_room_same_permissions_witness :
  exists a1 a2 t1 t2,
    minted (snd (run (POST sample_toJwt full_env (token_request "room-1" "alice"))))
    = [(a1, t1)]
    /\ minted (snd (run (POST sample_toJwt full_env (token_request "room-1" "bob"))))
       = [(a2, t2)]
    /\ at_identity a1 = Some (JStr "alice") /\ at_identity a2 = Some (JStr "bob")
    /\ at_video a1 = at_video a2
    /\ at_ttl a1 = Some "24h" /\ at_ttl a2 = Some "24h".
Proof.
  destruct (same_room_same_permissions sample_toJwt full_env
              (token_request "room-1" "alice") (token_request "room-1" "bob")
              (Some (JStr "room-1")) (Some (JStr "alice")) (Some (JStr "bob"))
              _ _ _ _ eq_refl eq_refl eq_refl eq_refl)
    as (a1 & a2 & H1 & H2 & Hi1 & Hi2 & Hv & _ & Ht1 & Ht2).
  exists a1, a2. do 2 eexists.
  repeat split; [exact H1 | exact H2 | exact Hi1 | exact Hi2 | exact Hv
                 | exact Ht1 | exact Ht2].
Defined.

Lemma createRoom_failure_no_retry_no_token_witness :
  exists res tr,
    run (GET sample_toJwt down full_env (Some "u1") "room-1") = (res, tr)
    /\ create_calls tr = 1
    /\ (CreateRoom "room-1" true ∉ tr)
    /\ minted tr = []
    /\ (forall r, res <> Ret (Some r)).
Proof.
  apply (createRoom_failure_no_retry_no_token sample_toJwt down full_env
           (Some "u1") "room-1"); reflexivity.
Defined.

(** C4 as it is written fails: with a media server that refuses
    [createRoom], the room route calls it once only, and its caller gets
    neither an exception nor an error answer: the handler ends without a
    response. *)
Lemma createRoom_failure_not_surfaced :
  let res := fst (run (GET sample_toJwt down full_env (Some "u1") "room-1")) in
  let tr := snd (run (GET sample_toJwt down full_env (Some "u1") "room-1")) in
  ~ surfaces_error_after_retry res tr
  /\ create_calls tr = 1
  /\ res = Ret None.
Proof.
  split; [|split; reflexivity].
  intros [Hcalls _]. vm_compute in Hcalls. discriminate.
Qed.

End TokenSamples.

(** ** Agents and customers *)

Section Classification.

Import CallUi.

Lemma prefix_append sub s :
  String.prefix sub s = true <-> exists post, s = sub ++ post.
Proof.
  revert s. induction sub as [|a sub IH]; intros s.
  - split; [intros _; exists s; reflexivity | destruct s; reflexivity].
  - destruct s as [|b s]; simpl.
    + split; [discriminate | intros [post H]; discriminate].
    + destruct (Ascii.ascii_dec a b) as [->|Hne].
      * rewrite IH. split; intros [post H]; exists post.
        -- rewrite H. reflexivity.
        -- simpl in H. injection H as H. exact H.
      * split; [discriminate | intros [post H]; simpl in H].
        injection H as H _. congruence.
Qed.

Lemma includes_unfold sub s :
  includes sub s
  = String.prefix sub s
    || match s with EmptyString => false | String _ s' => includes sub s' end.
Proof. destruct s; reflexivity. Qed.

(** [includes] is the substring test. *)
Lemma includes_substring sub s :
  includes sub s = true <-> exists pre post, s = pre ++ sub ++ post.
Proof.
  split.
  - induction s as [|c s IH]; rewrite includes_unfold; intros H;
      apply orb_true_iff in H as [H|H].
    + apply prefix_append in H as [post H]. exists "", post. exact H.
    + discriminate.
    + apply prefix_append in H as [post H]. exists "", post. exact H.
    + destruct (IH H) as (pre & post & ->).
      exists (String c pre), post. reflexivity.
  - intros (pre & post & ->).
    induction pre as [|c pre IH]; rewrite includes_unfold.
    + apply orb_true_iff. left. apply prefix_append. exists post. reflexivity.
    + apply orb_true_iff. right. exact IH.
Qed.

(** C8 (as amended).  The lists of agents and of customers are made from
    the identity alone: a participant is among the agents exactly when its
    identity contains "agent", among the customers exactly when it does
    not, and an agent is shown as "Agent A" exactly when its identity is
    "agent-a" and as "Agent B" otherwise. *)
Theorem classified_by_identity (participants : list Participant)
    (p : Participant) :
  (p ∈ agents participants
   <-> p ∈ participants
       /\ exists pre post, identity p = pre ++ "agent" ++ post)
  /\ (p ∈ customers participants
      <-> p ∈ participants
          /\ ~ exists pre post, identity p = pre ++ "agent" ++ post)
  /\ (agent_label p = "Agent A" <-> identity p = "agent-a")
  /\ (agent_label p = "Agent B" <-> identity p <> "agent-a").
Proof.
  unfold agents, customers. rewrite !list_elem_of_In, !filter_In.
  rewrite <- includes_substring.
  split; [reflexivity|]. split.
  - destruct (includes "agent" (identity p)); simpl; split; intros [H1 H2];
      (split; [exact H1|]); congruence.
  - unfold agent_label. case_bool_decide as H; split; split; congruence.
Qed.

(** C8 as it is written fails: a caller who joins as "travel-agent-fan" is
    listed among the support agents. *)
Lemma caller_listed_as_agent :
  ~ callers_not_agents [mkMember Caller (mkParticipant "travel-agent-fan" false)].
Proof.
  intros H.
  apply (H (mkMember Caller (mkParticipant "travel-agent-fan" false))).
  - apply list_elem_of_In. left. reflexivity.
  - reflexivity.
  - apply list_elem_of_In. left. reflexivity.
Qed.

End Classification.

(** ** The staged display and its cancel button *)

Section Staged.

Import CallUi.
Local Open Scope N_scope.

(** Timers that only count leave the stage, the timers and the clock as
    they are. *)
Lemma fire_ticks (dues : list Timer) (c : TransferStatus) :
  Forall (fun tm => run_cb tm = IncElapsed) dues ->
  let c' := fold_left (fun c tm => fire (run_cb tm) c) dues c in
  transferStage c' = transferStage c /\ timers c' = timers c /\ now c' = now c.
Proof.
  intros H. revert c. induction H as [|tm dues Hcb _ IH]; intros c; simpl.
  - auto.
  - rewrite Hcb. simpl.
    destruct (IH (setTimeElapsed (timeElapsed c + 1) c)) as (H1 & H2 & H3).
    auto.
Qed.

Lemma tick_quiet n c :
  quiet_for (N.succ n) c ->
  quiet_for n (tick c) /\ transferStage (tick c) = transferStage c.
Proof.
  intros Hq. unfold tick.
  set (t := now c + 1).
  set (base := mkTransferStatus _ _ _ _ _ _ _).
  assert (Forall (fun tm => run_cb tm = IncElapsed)
            (List.filter (fun tm => due tm =? t) (timers c))) as Hdues.
  { apply List.Forall_forall. intros tm Hin.
    apply filter_In in Hin as [Hin Hdue]. apply N.eqb_eq in Hdue.
    unfold quiet_for in Hq. rewrite List.Forall_forall in Hq.
    destruct (Hq tm Hin) as [H|H]; [exact H|]. unfold t in Hdue. lia. }
  destruct (fire_ticks _ base Hdues) as (Hs & Ht & Hn).
  split; [|exact Hs].
  unfold quiet_for. rewrite Ht, Hn. simpl.
  unfold quiet_for in Hq. clear -Hq. fold t.
  induction Hq as [|tm l H _ IH]; simpl; [constructor|].
  destruct (due tm =? t) eqn:Hdue.
  - destruct (every tm) as [p|]; [|exact IH].
    simpl. constructor; [|exact IH]. simpl.
    apply N.eqb_eq in Hdue. destruct H as [H|H]; [left; exact H|].
    unfold t in *. lia.
  - simpl. constructor; [|exact IH].
    destruct H as [H|H]; [left; exact H|right]. unfold t. lia.
Qed.

Lemma elapse_succ n c : elapse (N.succ n) c = elapse n (tick c).
Proof. unfold elapse. rewrite N.iter_succ_r. reflexivity. Qed.

Lemma elapse_add n m c : elapse (n + m) c = elapse n (elapse m c).
Proof. unfold elapse. apply N.iter_add. Qed.

(** The stage stays while no stage timer is due. *)
Lemma elapse_quiet n : forall c,
  quiet_for n c -> transferStage (elapse n c) = transferStage c.
Proof.
  induction n as [|n IH] using N.peano_ind; intros c Hq.
  - reflexivity.
  - rewrite elapse_succ. destruct (tick_quiet n c Hq) as [Hq' Hs].
    rewrite (IH _ Hq'). exact Hs.
Qed.

(** Timers do not touch the prop. *)
Lemma tick_prop c : isTransferRequested (tick c) = isTransferRequested c.
Proof.
  unfold tick.
  set (base := mkTransferStatus _ _ _ _ _ _ _).
  change (isTransferRequested c) with (isTransferRequested base).
  generalize base. clear base.
  induction (List.filter _ (timers c)) as [|tm dues IH]; intros b; simpl.
  - reflexivity.
  - rewrite IH. destruct (run_cb tm); reflexivity.
Qed.

Lemma elapse_prop n c : isTransferRequested (elapse n c) = isTransferRequested c.
Proof.
  unfold elapse. induction n as [|n IH] using N.peano_ind; [reflexivity|].
  rewrite N.iter_succ, tick_prop. exact IH.
Qed.

Lemma effect_withdrawn c :
  isTransferRequested c = false -> transferStage (effect c) = requested.
Proof.
  intros H. unfold effect.
  destruct (cleanup c) as [[timer stageTimer]|]; simpl; rewrite H; reflexivity.
Qed.

Lemma at_2000 :
  elapse 2000 (mount true)
  = mkTransferStatus true briefing 2 2000
      [mkTimer 0 3000 (Some 1000) IncElapsed; mkTimer 2 7000 None ToConnecting]
      3 (Some (0%nat, 1%nat)).
Proof. vm_compute. reflexivity. Qed.

Lemma at_7000 :
  elapse 7000 (mount true)
  = mkTransferStatus true connecting 7 7000
      [mkTimer 0 8000 (Some 1000) IncElapsed; mkTimer 3 10000 None ToCompleted]
      4 (Some (0%nat, 1%nat)).
Proof. vm_compute. reflexivity. Qed.

Lemma at_10000 :
  elapse 10000 (mount true)
  = mkTransferStatus true completed 10 10000
      [mkTimer 0 11000 (Some 1000) IncElapsed] 4 (Some (0%nat, 1%nat)).
Proof. vm_compute. reflexivity. Qed.

Ltac quiet :=
  unfold quiet_for; simpl;
  repeat (apply List.Forall_cons;
          [first [left; reflexivity | right; simpl; lia]|]);
  apply List.Forall_nil.

(** C2 (as amended).  Once a transfer is requested the stage shown by
    [TransferStatus] moves with the clock alone, through its stages in
    order: it is "requested" for 2 s, "briefing" until 7 s, "connecting"
    until 10 s and "completed" from then on; taking the request back puts
    the stage to "requested" again. *)
Theorem stage_follows_the_clock (n : N) :
  transferStage (elapse n (mount true))
  = (if n <? 2000 then requested
     else if n <? 7000 then briefing
     else if n <? 10000 then connecting
     else completed)
  /\ transferStage (set_prop false (elapse n (mount true))) = requested.
Proof.
  split.
  - destruct (N.ltb_spec n 2000) as [H1|H1].
    { rewrite elapse_quiet; [reflexivity|]. quiet. }
    destruct (N.ltb_spec n 7000) as [H2|H2].
    { replace n with ((n - 2000) + 2000) by lia.
      rewrite elapse_add, at_2000, elapse_quiet; [reflexivity|]. quiet. }
    destruct (N.ltb_spec n 10000) as [H3|H3].
    { replace n with ((n - 7000) + 7000) by lia.
      rewrite elapse_add, at_7000, elapse_quiet; [reflexivity|]. quiet. }
    replace n with ((n - 10000) + 10000) by lia.
    rewrite elapse_add, at_10000, elapse_quiet; [reflexivity|]. quiet.
  - unfold set_prop. rewrite elapse_prop.
    change (bool_decide (false = isTransferRequested (mount true))) with false.
    cbv iota. apply effect_withdrawn. reflexivity.
Qed.

(** C2 as it is written fails: two seconds after the request the stage has
    moved, and nothing but time has passed. *)
Lemma stage_moves_by_time_alone : ~ event_driven (mount true).
Proof.
  intros H. specialize (H 2000). rewrite at_2000 in H. discriminate.
Qed.

End Staged.

Section Cancel.

Import CallUi.



End Cancel.

(** ** The order of a transfer *)

Section Ordering.

Import Orchestrator.

(** What [step] leaves alone. *)
Lemma step_parties t s t' :
  step t s = Some t' ->
  agentA t' = agentA t /\ agentB t' = agentB t
  /\ briefingRoom t' = briefingRoom t /\ originalRoom t' = originalRoom t.
Proof.
  unfold step. destruct (state t), s; intros [= <-]; auto.
Qed.

Lemma step_next t s t' : step t s = Some t' -> state t' ∈ next_states (state t).
Proof.
  unfold step. destruct (state t), s; intros [= <-]; simpl;
    apply list_elem_of_In; simpl; auto.
Qed.

Lemma summarised_start a b o r : summarised (requestTransfer a b o r).
Proof. intros _. split; [reflexivity|constructor]. Qed.

Lemma summarised_step t s t' :
  summarised t -> step t s = Some t' -> summarised t'.
Proof.
  intros Ht Hs Hnone. unfold step in Hs.
  destruct (state t) eqn:Hst, s; try discriminate; injection Hs as <-;
    simpl in Hnone; try discriminate;
    destruct (Ht Hnone) as [Hn Hg]; rewrite Hst in Hn; try discriminate;
    (split; [reflexivity|]); simpl; try exact Hg.
  apply Forall_app. split; [exact Hg|]. repeat constructor.
Qed.

Lemma summarised_invited t :
  agentA t <> agentB t -> summarised t -> invited t -> summary t <> None.
Proof.
  intros Hab Ht Hin Hnone. destruct (Ht Hnone) as [_ Hg].
  rewrite Forall_forall in Hg. specialize (Hg _ Hin).
  injection Hg as Hg. congruence.
Qed.

(** Only the invitation out of [SummaryReady] gives Agent B its grant for
    the briefing room. *)
Lemma step_invites t s t' :
  agentA t <> agentB t -> originalRoom t <> briefingRoom t ->
  step t s = Some t' -> invited t' -> ~ invited t ->
  state t = SummaryReady.
Proof.
  intros Hab Hor Hs Hin Hnot. unfold step in Hs. unfold invited in *.
  destruct (state t) eqn:Hst, s; try discriminate; injection Hs as <-;
    simpl in Hin; try (destruct (Hnot Hin)); try reflexivity;
    apply elem_of_app in Hin as [Hin|Hin]; try (destruct (Hnot Hin));
    apply list_elem_of_singleton in Hin; injection Hin as Hin; congruence.
Qed.

Lemma history_head ss : forall t, history t ss !! 0%nat = Some t.
Proof.
  induction ss as [|s ss IH]; intros t; simpl; [reflexivity|].
  destruct (step t s); [reflexivity|apply IH].
Qed.

Lemma history_invited ss : forall t i ti,
  agentA t <> agentB t -> originalRoom t <> briefingRoom t ->
  history t ss !! i = Some ti -> invited ti ->
  invited t
  \/ exists j tj, (j < i)%nat /\ history t ss !! j = Some tj
                  /\ state tj = SummaryReady /\ ~ invited tj.
Proof.
  induction ss as [|s ss IH]; intros t i ti Hab Hor Hi Hin; simpl in Hi.
  - destruct i; [|destruct i; discriminate]. injection Hi as <-. left; exact Hin.
  - destruct (step t s) as [t'|] eqn:Hs.
    + destruct i as [|i]; [injection Hi as <-; left; exact Hin|].
      simpl in Hi. destruct (step_parties _ _ _ Hs) as (Ha & Hb & Hr & Ho).
      destruct (IH t' i ti) as [Hin'|(j & tj & Hj & Htj & Hst & Hn)];
        [congruence|congruence|exact Hi|exact Hin| |].
      * destruct (decide (invited t)) as [Hy|Hn]; [left; exact Hy|right].
        exists 0%nat, t. split; [lia|].
        split; [simpl; rewrite Hs; reflexivity|].
        split; [|exact Hn]. eapply step_invites; eauto.
      * right. exists (S j), tj. split; [lia|]. simpl. rewrite Hs. auto.
    + destruct (IH t i ti Hab Hor Hi Hin) as [H|(j & tj & Hj & Htj & Hst & Hn)];
        [left; exact H|right].
      exists j, tj. simpl. rewrite Hs. auto.
Qed.

Lemma history_summarised ss : forall t,
  summarised t -> Forall summarised (history t ss).
Proof.
  induction ss as [|s ss IH]; intros t Ht; simpl.
  - constructor; [exact Ht|constructor].
  - destruct (step t s) as [t'|] eqn:Hs; [|apply IH; exact Ht].
    constructor; [exact Ht|]. apply IH. eapply summarised_step; eauto.
Qed.

Lemma history_parties ss : forall t,
  Forall (fun t' => agentA t' = agentA t /\ agentB t' = agentB t)
         (history t ss).
Proof.
  induction ss as [|s ss IH]; intros t; simpl.
  - repeat constructor.
  - destruct (step t s) as [t'|] eqn:Hs; [|apply IH].
    constructor; [auto|].
    destruct (step_parties _ _ _ Hs) as (Ha & Hb & _).
    eapply Forall_impl; [apply IH|]. simpl. intros x. rewrite Ha, Hb. auto.
Qed.

(** Each transfer in a history is in a next state of the one before. *)
Lemma history_ordered ss : forall t i ti ti',
  history t ss !! i = Some ti -> history t ss !! S i = Some ti' ->
  state ti' ∈ next_states (state ti).
Proof.
  induction ss as [|s ss IH]; intros t i ti ti' Hi Hi'; simpl in *.
  - destruct i; discriminate.
  - destruct (step t s) as [t'|] eqn:Hs; [|eapply IH; eauto].
    destruct i as [|i].
    + injection Hi as <-. simpl in Hi'.
      rewrite history_head in Hi'. injection Hi' as <-.
      eapply step_next; eauto.
    + simpl in Hi, Hi'. eapply IH; eauto.
Qed.

End Ordering.

Section SummaryFirst.

Import Orchestrator.

(** The page stores the summary of the reply before it connects anybody
    with the tokens of the reply. *)
Lemma initiateTransfer_stores_summary_first admits r w :
  DemoPage.origRoomId w <> "" ->
  exists w1 rest,
    DemoPage.initiateTransfer admits (Some r) w = w1 :: rest
    /\ DemoPage.media w1 = DemoPage.media w
    /\ Forall (fun w' => DemoPage.transferInfo w' = Some r
                         /\ DemoPage.summary w' = DemoPage.call_summary r)
              (w1 :: rest).
Proof.
  intros Ho. unfold DemoPage.initiateTransfer.
  rewrite bool_decide_eq_false_2 by exact Ho.
  destruct (DemoPage.connectRoom admits (DemoPage.agent_a_token r) _)
    as [[ha ma]|]; [|eexists _, _; repeat split; repeat constructor].
  destruct (DemoPage.connectRoom admits (DemoPage.agent_b_token r) _)
    as [[hb mb]|]; eexists _, _; repeat split; repeat constructor.
Qed.

(** C5.  Agent B is invited to the briefing room only with the summary in
    hand.  In the state table: in every history of a transfer, a transfer
    in which Agent B holds the grant for the briefing room has its summary,
    and an earlier transfer of the history was in [SummaryReady], with the
    summary and without that grant; each transfer of a history is in a
    next state of the one before it.  In the page: the summary of the
    backend's reply is stored before any of its tokens is used. *)
Theorem summary_before_agentB_is_invited
    (a b original briefing : string) (ss : list signal)
    (admits : DemoPage.token -> bool) (r : DemoPage.TransferResp)
    (w : DemoPage.World) :
  a <> b -> original <> briefing -> DemoPage.origRoomId w <> "" ->
  let h := history (requestTransfer a b original briefing) ss in
  (forall i t, h !! i = Some t -> invited t ->
      summary t <> None
      /\ exists j tj, (j < i)%nat /\ h !! j = Some tj
                      /\ state tj = SummaryReady
                      /\ summary tj <> None /\ ~ invited tj)
  /\ (forall i t t', h !! i = Some t -> h !! S i = Some t' ->
                     state t' ∈ next_states (state t))
  /\ (exists w1 rest,
         DemoPage.initiateTransfer admits (Some r) w = w1 :: rest
         /\ DemoPage.media w1 = DemoPage.media w
         /\ Forall (fun w' => DemoPage.transferInfo w' = Some r
                              /\ DemoPage.summary w' = DemoPage.call_summary r)
                   (w1 :: rest)).
Proof.
  intros Hab Hob Ho h.
  pose proof (history_summarised ss _ (summarised_start a b original briefing))
    as Hsum.
  pose proof (history_parties ss (requestTransfer a b original briefing)) as Hpar.
  fold h in Hsum, Hpar.
  split; [|split].
  - intros i t Hi Hin.
    pose proof (Forall_lookup_1 _ _ _ _ Hsum Hi) as Ht.
    destruct (Forall_lookup_1 _ _ _ _ Hpar Hi) as [Ha Hb]. simpl in Ha, Hb.
    split; [apply summarised_invited; [congruence|exact Ht|exact Hin]|].
    destruct (history_invited ss (requestTransfer a b original briefing)
                i t Hab Hob Hi Hin)
      as [Hinit|(j & tj & Hj & Htj & Hst & Hn)].
    + unfold invited in Hinit. simpl in Hinit. inversion Hinit.
    + exists j, tj. repeat split; try assumption.
      intros Hnone.
      destruct (Forall_lookup_1 _ _ _ _ Hsum Htj Hnone) as [Hns _].
      rewrite Hst in Hns. discriminate.
  - intros i t t'. apply history_ordered.
  - apply initiateTransfer_stores_summary_first. exact Ho.
Qed.

Lemma summary_before_agentB_is_invited_witness :
  let h := history (requestTransfer "A1" "B1" "R1" "R2")
             [BriefingRoomCreated; AgentBInvited; SummaryObtained "forgot password";
              AgentBInvited; CompleteTransfer; HandoffConfirmed] in
  (forall i t, h !! i = Some t -> invited t ->
      summary t <> None
      /\ exists j tj, (j < i)%nat /\ h !! j = Some tj
                      /\ state tj = SummaryReady
                      /\ summary tj <> None /\ ~ invited tj)
  /\ (forall i t t', h !! i = Some t -> h !! S i = Some t' ->
                     state t' ∈ next_states (state t))
  /\ (exists w1 rest,
         DemoPage.initiateTransfer Samples.everyone
           (Some (DemoPage.mkTransferResp "R1" "R2"
                    (DemoPage.mkToken "A1" "R2") (DemoPage.mkToken "B1" "R2")
                    "forgot password"))
           Samples.agentA_connected = w1 :: rest
         /\ DemoPage.media w1 = DemoPage.media Samples.agentA_connected
         /\ Forall (fun w' =>
                      DemoPage.transferInfo w'
                      = Some (DemoPage.mkTransferResp "R1" "R2"
                                (DemoPage.mkToken "A1" "R2")
                                (DemoPage.mkToken "B1" "R2") "forgot password")
                      /\ DemoPage.summary w' = "forgot password")
                   (w1 :: rest)).
Proof.
  apply (summary_before_agentB_is_invited "A1" "B1" "R1" "R2");
    vm_compute; discriminate.
Defined.

End SummaryFirst.

(** ** Completing a transfer *)

Section Handoff.

Import DemoPage Samples.

Lemma in_transfer_eq :
  in_transfer
  = mkWorld (Some 0) (Some 2) (Some 3) "R1"
      (Some (mkTransferResp "R1" "R2" (mkToken "A1" "R2") (mkToken "B1" "R2")
               "forgot password"))
      "forgot password" None "transfer_room_connected"
      (mkMedia [mkConnection 0 (mkToken "demoCaller" "R1");
                mkConnection 1 (mkToken "A1" "R1");
                mkConnection 2 (mkToken "A1" "R2");
                mkConnection 3 (mkToken "B1" "R2")] 4 []).
Proof. vm_compute. reflexivity. Qed.



Lemma In_disconnect c h m :
  In c (live (disconnect h m)) <-> In c (live m) /\ cid c <> h.
Proof.
  unfold disconnect. simpl. rewrite filter_In, negb_true_iff, Nat.eqb_neq. tauto.
Qed.

Lemma In_connectRoom admits t m h m' c :
  connectRoom admits t m = Some (h, m') ->
  In c (live m') <-> In c (live m) \/ c = mkConnection (fresh m) t.
Proof.
  unfold connectRoom. destruct (admits t); [|discriminate]. intros [= <- <-].
  simpl. rewrite in_app_iff. simpl. intuition congruence.
Qed.

End Handoff.

Section HandoffProperty.

Import DemoPage Checks Samples.










(** The demo run when the server does not wait for Agent B.  On replies
    with Agent B's token for the call: with a server that removes nobody
    Agent A is still in the room at the end; with a server that removes
    Agent A while it answers the request, the room is without an agent
    until Agent B has connected. *)
Lemma handoff_sample_runs :
  let reply ids :=
    Some (mkCompleteReply
            (mkCompleteTransferResp "R1" (mkToken agent_b_id "R1") "completed")
            ids) in
  map (fun w => (has_agent "R1" w, joined "R1" agent_a_id w, joined "R1" agent_b_id w))
      (leaveTransferAndComplete everyone (reply []) in_transfer)
  = [(true, true, false); (true, true, false); (true, true, true);
     (true, true, true); (true, true, true)]
  /\ map (fun w => (has_agent "R1" w, joined "R1" agent_a_id w, joined "R1" agent_b_id w))
         (leaveTransferAndComplete everyone (reply ["A1"]) in_transfer)
     = [(false, false, false); (false, false, false); (true, false, true);
        (true, false, true); (true, false, true)].
Proof. split; vm_compute; reflexivity. Qed.

End HandoffProperty.

(** * Further properties *)

(** ** The clock text *)

Section ClockText.

Import CallUi Display.

Lemma split_colon_app a b :
  split_colon a = None -> split_colon (a ++ String ":" b) = Some (a, b).
Proof.
  induction a as [|c a IH]; simpl; intros H; [reflexivity|].
  destruct (Ascii.eqb c ":"); [discriminate|].
  destruct (split_colon a) as [[x y]|]; [discriminate|].
  rewrite IH by reflexivity. reflexivity.
Qed.

Lemma split_colon_uint d : split_colon (NilEmpty.string_of_uint d) = None.
Proof. induction d; simpl; try rewrite IHd; reflexivity. Qed.

Lemma split_colon_digits n : split_colon (digits n) = None.
Proof.
  unfold digits, NilZero.string_of_uint.
  destruct (N.to_uint n); try reflexivity; apply split_colon_uint.
Qed.

Lemma N_to_uint_nonnil n : N.to_uint n <> Decimal.Nil.
Proof.
  destruct n as [|p]; simpl; [discriminate|].
  apply DecimalPos.Unsigned.to_uint_nonnil.
Qed.

Lemma read_digits n :
  N.of_uint <$> NilZero.uint_of_string (digits n) = Some n.
Proof.
  unfold digits. rewrite NilZero.usu by apply N_to_uint_nonnil.
  simpl. rewrite DecimalN.Unsigned.of_to. reflexivity.
Qed.

Lemma seconds_field r :
  (r < 60)%N ->
  N.of_uint <$> NilZero.uint_of_string (padStart 2 "0"%char (digits r)) = Some r
  /\ String.length (padStart 2 "0"%char (digits r)) = 2%nat.
Proof.
  intros H.
  assert (forallb seconds_field_ok (map N.of_nat (seq 0 60)) = true) as Hall
    by (vm_compute; reflexivity).
  rewrite forallb_forall in Hall.
  specialize (Hall r). unfold seconds_field_ok in Hall.
  rewrite andb_true_iff, bool_decide_eq_true, Nat.eqb_eq in Hall.
  apply Hall. apply in_map_iff. exists (N.to_nat r). split; [lia|].
  apply in_seq. lia.
Qed.

Lemma read_formatTime seconds : read_clock (formatTime seconds) = Some seconds.
Proof.
  assert (seconds mod 60 < 60)%N as Hr by (apply N.mod_lt; discriminate).
  destruct (seconds_field _ Hr) as [Hs _].
  unfold read_clock, formatTime. cbv zeta.
  change (digits (seconds / 60) ++ ":" ++ ?x)
    with (digits (seconds / 60) ++ String ":" x).
  rewrite split_colon_app by apply split_colon_digits.
  pose proof (read_digits (seconds / 60)) as Hm.
  destruct (NilZero.uint_of_string (digits (seconds / 60))) as [dm|];
    [|discriminate].
  destruct (NilZero.uint_of_string (padStart 2 "0" (digits (seconds mod 60))))
    as [dr|]; [|discriminate].
  simpl in Hm, Hs. injection Hm as ->. injection Hs as ->.
  f_equal. rewrite (N.div_mod seconds 60) at 3 by discriminate. lia.
Qed.

(** X1.  The clock text of [formatTime] (and [formatDuration]) is the
    minutes, a colon and the seconds in exactly two digits; it reads back
    to the number of seconds it was made from, so that different times
    never show the same text. *)
Theorem formatTime_reads_back (seconds : N) :
  read_clock (formatTime seconds) = Some seconds
  /\ (exists s, formatTime seconds = digits (seconds / 60) ++ ":" ++ s
                /\ String.length s = 2%nat)
  /\ (forall other, formatTime other = formatTime seconds -> other = seconds)
  /\ formatDuration seconds = formatTime seconds.
Proof.
  split; [apply read_formatTime|]. split; [|split; [|reflexivity]].
  - assert (seconds mod 60 < 60)%N as Hr by (apply N.mod_lt; discriminate).
    destruct (seconds_field _ Hr) as [_ Hl].
    eexists. split; [reflexivity|exact Hl].
  - intros other H. pose proof (read_formatTime other) as Ho.
    rewrite H, read_formatTime in Ho. congruence.
Qed.

End ClockText.

(** ** The seconds counter *)

Section Counting.

Import CallUi Display.
Local Open Scope N_scope.
Local Ltac Zify.zify_post_hook ::= Z.div_mod_to_equations.

(** What the due timers do to a display: they add to the count once for
    each firing of the interval, and leave behind only new timeouts. *)
Lemma fire_all (dues : list Timer) : forall c,
  let c' := fold_left (fun c tm => fire (run_cb tm) c) dues c in
  timeElapsed c'
  = timeElapsed c + N.of_nat (length (List.filter (fun tm => counts (run_cb tm)) dues))
  /\ now c' = now c
  /\ isTransferRequested c' = isTransferRequested c
  /\ exists extra,
       timers c' = (timers c ++ extra)%list
       /\ Forall (fun tm => counts (run_cb tm) = false /\ every tm = None) extra.
Proof.
  induction dues as [|tm dues IH]; intros c; simpl.
  - split; [lia|]. split; [reflexivity|]. split; [reflexivity|].
    exists []. rewrite app_nil_r. auto.
  - destruct (IH (fire (run_cb tm) c)) as (Ht & Hn & Hp & extra & Hx & Hf).
    simpl in *. rewrite Ht, Hn, Hp, Hx.
    destruct (run_cb tm); simpl;
      (split; [lia|]); (split; [reflexivity|]); (split; [reflexivity|]).
    + exists extra. auto.
    + eexists. rewrite <- app_assoc. split; [reflexivity|].
      constructor; [split; reflexivity|exact Hf].
    + eexists. rewrite <- app_assoc. split; [reflexivity|].
      constructor; [split; reflexivity|exact Hf].
    + exists extra. auto.
Qed.

Lemma counting_due d t l :
  counting d l ->
  length (List.filter (fun tm => counts (run_cb tm))
            (List.filter (fun tm => due tm =? t) l))
  = if d =? t then 1%nat else 0%nat.
Proof.
  intros [Hall Hone].
  assert (List.filter (fun tm => counts (run_cb tm))
            (List.filter (fun tm => due tm =? t) l)
          = if d =? t then List.filter (fun tm => counts (run_cb tm)) l else [])
    as ->; [|destruct (d =? t); [exact Hone|reflexivity]].
  clear Hone. induction Hall as [|tm l H _ IH]; simpl.
  - destruct (d =? t); reflexivity.
  - destruct H as [(Hc & _ & Hd)|(Hc & _)].
    + rewrite Hd. destruct (d =? t) eqn:E; simpl; rewrite ?Hc;
        [f_equal|]; exact IH.
    + rewrite ?Hc. destruct (due tm =? t); simpl; rewrite ?Hc; exact IH.
Qed.

Lemma counting_kept d t l :
  counting d l ->
  counting (if d =? t then t + 1000 else d)
    (omap (fun tm =>
             if due tm =? t then
               match every tm with
               | Some p => Some (mkTimer (tid tm) (t + p) (every tm) (run_cb tm))
               | None => None
               end
             else Some tm) l).
Proof.
  intros [Hall Hone]. split.
  - clear Hone. induction Hall as [|tm l H _ IH]; simpl; [constructor|].
    destruct H as [(Hc & He & Hd)|(Hc & He)].
    + rewrite Hd, He. destruct (d =? t) eqn:E; constructor; try exact IH;
        left; auto.
    + rewrite He. destruct (due tm =? t); [exact IH|].
      constructor; [right; auto|exact IH].
  - rewrite <- Hone. clear Hone.
    induction Hall as [|tm l H _ IH]; simpl; [reflexivity|].
    destruct H as [(Hc & He & Hd)|(Hc & He)].
    + rewrite He. destruct (due tm =? t); simpl; rewrite Hc; simpl; f_equal;
        exact IH.
    + rewrite He, Hc. destruct (due tm =? t); simpl; rewrite ?Hc; exact IH.
Qed.

Lemma counting_app d l extra :
  counting d l ->
  Forall (fun tm => counts (run_cb tm) = false /\ every tm = None) extra ->
  counting d (l ++ extra).
Proof.
  intros [Hall Hone] Hx. split.
  - apply Forall_app. split; [exact Hall|].
    eapply Forall_impl; [exact Hx|]. simpl. intros tm H. right. exact H.
  - rewrite List.filter_app, length_app, Hone.
    replace (List.filter (fun tm => counts (run_cb tm)) extra) with (@nil Timer);
      [reflexivity|].
    clear -Hx. induction Hx as [|tm l [H _] _ IH]; simpl; [reflexivity|].
    rewrite H. exact IH.
Qed.

Lemma tick_now c : now (tick c) = now c + 1.
Proof.
  unfold tick. set (base := mkTransferStatus _ _ _ _ _ _ _).
  destruct (fire_all (List.filter (fun tm => due tm =? now c + 1) (timers c)) base)
    as (_ & Hn & _). rewrite Hn. reflexivity.
Qed.

Lemma tick_in_step c : in_step c -> in_step (tick c).
Proof.
  intros [Hc Hb]. unfold in_step. rewrite tick_now. unfold tick.
  set (t := now c + 1) in *.
  set (base := mkTransferStatus _ _ _ _ _ _ _).
  destruct (fire_all (List.filter (fun tm => due tm =? t) (timers c)) base)
    as (Ht & _ & _ & extra & Hx & Hf).
  rewrite Ht, Hx. simpl.
  rewrite (counting_due _ t _ Hc).
  pose proof (counting_kept _ t _ Hc) as Hk.
  destruct (N.eqb_spec (1000 * (timeElapsed c + 1)) t) as [E|E].
  - split; [|lia].
    apply counting_app; [|exact Hf].
    replace (1000 * (timeElapsed c + N.of_nat 1 + 1)) with (t + 1000) by lia.
    exact Hk.
  - split; [|unfold t in *; lia].
    apply counting_app; [|exact Hf].
    replace (timeElapsed c + N.of_nat 0) with (timeElapsed c) by lia.
    exact Hk.
Qed.

Lemma mount_in_step : in_step (mount true).
Proof.
  split; [split|simpl; lia].
  - simpl. constructor; [left; repeat split; reflexivity|].
    constructor; [right; split; reflexivity|constructor].
  - reflexivity.
Qed.

Lemma elapse_in_step n c : in_step c -> in_step (elapse n c).
Proof.
  intros H. unfold elapse. induction n as [|n IH] using N.peano_ind; [exact H|].
  rewrite N.iter_succ. apply tick_in_step. exact IH.
Qed.

Lemma elapse_now n c : now (elapse n c) = now c + n.
Proof.
  unfold elapse. induction n as [|n IH] using N.peano_ind; [simpl; lia|].
  rewrite N.iter_succ, tick_now, IH. lia.
Qed.

(** X2.  The badge of the transfer display counts whole seconds: [n]
    milliseconds after the request [timeElapsed] is [n / 1000], and the
    badge shows that number as a clock text. *)
Theorem clock_counts_seconds (n : N) :
  timeElapsed (elapse n (mount true)) = n / 1000
  /\ card_clock <$> render_status (elapse n (mount true))
     = Some (formatTime (n / 1000)).
Proof.
  assert (timeElapsed (elapse n (mount true)) = n / 1000) as H.
  { destruct (elapse_in_step n _ mount_in_step) as [_ Hb].
    rewrite elapse_now in Hb. simpl in Hb. lia. }
  split; [exact H|].
  unfold render_status. rewrite elapse_prop. simpl. rewrite H. reflexivity.
Qed.

End Counting.

(** ** Progress, the cancel window and a withdrawn request *)

Section Progress.

Import CallUi Display.
Local Open Scope N_scope.

Ltac no_stage_timer :=
  unfold quiet_for; simpl;
  repeat (apply List.Forall_cons;
          [first [left; reflexivity | right; simpl; lia]|]);
  apply List.Forall_nil.

(** The stage of a display [n] milliseconds after its mount. *)
Lemma stage_after n :
  transferStage (elapse n (mount true))
  = if n <? 2000 then requested
    else if n <? 7000 then briefing
    else if n <? 10000 then connecting
    else completed.
Proof.
  destruct (N.ltb_spec n 2000) as [H1|H1].
  { rewrite elapse_quiet; [reflexivity|]. no_stage_timer. }
  destruct (N.ltb_spec n 7000) as [H2|H2].
  { replace n with ((n - 2000) + 2000) by lia.
    rewrite elapse_add, at_2000, elapse_quiet; [reflexivity|]. no_stage_timer. }
  destruct (N.ltb_spec n 10000) as [H3|H3].
  { replace n with ((n - 7000) + 7000) by lia.
    rewrite elapse_add, at_7000, elapse_quiet; [reflexivity|]. no_stage_timer. }
  replace n with ((n - 10000) + 10000) by lia.
  rewrite elapse_add, at_10000, elapse_quiet; [reflexivity|]. no_stage_timer.
Qed.

(** X3.  The progress label and the progress bar agree (step k of 4 is
    shown with the first k bars lit), and the step shown never goes back as
    time passes. *)
Theorem progress_agrees_and_grows :
  (forall s,
      progress_label s = digits (N.of_nat (stage_rank s)) ++ "/4"
      /\ progress_bars s
         = map (fun k => bool_decide (k <= stage_rank s)%nat) [1; 2; 3; 4]%nat)
  /\ (forall n m, n <= m ->
        (stage_rank (transferStage (elapse n (mount true)))
         <= stage_rank (transferStage (elapse m (mount true))))%nat).
Proof.
  split.
  - intros []; split; reflexivity.
  - intros n m Hnm. rewrite !stage_after.
    repeat (match goal with
            | |- context [?a <? ?b] => destruct (N.ltb_spec a b)
            end);
      simpl; lia.
Qed.


(** While no timer is due only the clock moves. *)
Lemma tick_idle c :
  Forall (fun tm => now c + 1 < due tm) (timers c) ->
  tick c = at_time (now c + 1) c.
Proof.
  intros H. unfold tick, at_time.
  assert (List.filter (fun tm => due tm =? now c + 1) (timers c) = []) as ->.
  { induction H as [|tm l Htm _ IH]; simpl; [reflexivity|].
    destruct (N.eqb_spec (due tm) (now c + 1)); [lia|exact IH]. }
  simpl. f_equal.
  induction H as [|tm l Htm _ IH]; simpl; [reflexivity|].
  destruct (N.eqb_spec (due tm) (now c + 1)); [lia|]. simpl. f_equal. exact IH.
Qed.

Lemma elapse_idle n : forall c,
  Forall (fun tm => now c + n < due tm) (timers c) ->
  elapse n c = at_time (now c + n) c.
Proof.
  induction n as [|n IH] using N.peano_ind; intros c H.
  - destruct c. unfold at_time. simpl. rewrite N.add_0_r. reflexivity.
  - rewrite elapse_succ, tick_idle.
    + rewrite IH; unfold at_time; simpl.
      * f_equal. lia.
      * eapply Forall_impl; [exact H|]. simpl. intros. lia.
    + eapply Forall_impl; [exact H|]. simpl. intros. lia.
Qed.

(** The display before the briefing: the interval and [stageTimer] are
    pending. *)
Lemma requested_shape k :
  k < 2000 ->
  exists d te,
    k < d
    /\ elapse k (mount true)
       = mkTransferStatus true requested te k
           [mkTimer 0 d (Some 1000) IncElapsed; mkTimer 1 2000 None ToBriefing]
           2 (Some (0%nat, 1%nat)).
Proof.
  induction k as [|k IH] using N.peano_ind; intros Hk.
  - exists 1000, 0. split; [lia|]. reflexivity.
  - destruct IH as (d & te & Hd & E); [lia|].
    unfold elapse in *. rewrite N.iter_succ, E. unfold tick.
    cbn -[N.eqb N.add].
    assert ((2000 =? k + 1) = false) as -> by (apply N.eqb_neq; lia).
    replace (N.succ k) with (k + 1) by lia.
    destruct (d =? k + 1) eqn:E2; cbn -[N.eqb N.add].
    + exists (k + 1 + 1000), (te + 1). split; [lia|reflexivity].
    + exists d, te. apply N.eqb_neq in E2. split; [lia|reflexivity].
Qed.

(** The display during the briefing: the interval and the timeout that
    leads to "connecting" are pending. *)
Lemma briefing_shape k :
  k < 5000 ->
  exists d te,
    2000 + k < d
    /\ elapse (k + 2000) (mount true)
       = mkTransferStatus true briefing te (2000 + k)
           [mkTimer 0 d (Some 1000) IncElapsed; mkTimer 2 7000 None ToConnecting]
           3 (Some (0%nat, 1%nat)).
Proof.
  induction k as [|k IH] using N.peano_ind; intros Hk.
  - exists 3000, 2. split; [lia|]. exact at_2000.
  - destruct IH as (d & te & Hd & E); [lia|].
    replace (N.succ k + 2000) with (N.succ (k + 2000)) by lia.
    unfold elapse in *. rewrite N.iter_succ, E. unfold tick.
    cbn -[N.eqb N.add].
    assert ((7000 =? 2000 + k + 1) = false) as -> by (apply N.eqb_neq; lia).
    replace (2000 + N.succ k) with (2000 + k + 1) by lia.
    destruct (d =? 2000 + k + 1) eqn:E2; cbn -[N.eqb N.add].
    + exists (2000 + k + 1 + 1000), (te + 1). split; [lia|reflexivity].
    + exists d, te. apply N.eqb_neq in E2. split; [lia|reflexivity].
Qed.

Lemma effect_prop c : isTransferRequested (effect c) = isTransferRequested c.
Proof.
  unfold effect.
  destruct (cleanup c) as [[timer stageTimer]|]; simpl;
    destruct (isTransferRequested c) eqn:E; simpl; congruence.
Qed.

Lemma set_prop_prop b c : isTransferRequested (set_prop b c) = b.
Proof.
  unfold set_prop. case_bool_decide as H; [congruence|].
  rewrite effect_prop. reflexivity.
Qed.

Lemma effect_requested c :
  isTransferRequested c = true -> transferStage (effect c) = transferStage c.
Proof.
  intros H. unfold effect.
  destruct (cleanup c) as [[timer stageTimer]|]; simpl; rewrite H; reflexivity.
Qed.

(** X5.  Taking the request back from a mounted [TransferStatus] clears
    the interval and [stageTimer], but not the timeouts set inside
    [stageTimer].  Before the briefing (first 2 s) the stage then stays
    "requested".  During the briefing the timeout that is left pending
    still fires: the hidden display goes to "connecting" 7 s and to
    "completed" 10 s after the first request, and a new request shows that
    stage, since only a withdrawal puts the stage back. *)
Theorem withdrawal_leaves_inner_timeouts (n m : N) :
  n < 7000 ->
  let c := elapse m (set_prop false (elapse n (mount true))) in
  render_status c = None
  /\ transferStage c
     = (if n <? 2000 then requested
        else if n + m <? 7000 then requested
        else if n + m <? 10000 then connecting
        else completed)
  /\ transferStage (set_prop true c) = transferStage c.
Proof.
  intros Hn c.
  assert (isTransferRequested c = false) as Hp.
  { subst c. rewrite elapse_prop. apply set_prop_prop. }
  split; [unfold render_status; rewrite Hp; reflexivity|].
  split.
  2:{ unfold set_prop. rewrite Hp.
      rewrite bool_decide_eq_false_2 by discriminate.
      rewrite effect_requested by reflexivity. reflexivity. }
  subst c. clear Hp.
  assert (forall x, elapse 1 x = tick x) as E1 by reflexivity.
  destruct (N.ltb_spec n 2000) as [H0|H0].
  { destruct (requested_shape n H0) as (d & te & Hd & E). rewrite E.
    assert (set_prop false
              (mkTransferStatus true requested te n
                 [mkTimer 0 d (Some 1000) IncElapsed;
                  mkTimer 1 2000 None ToBriefing] 2 (Some (0%nat, 1%nat)))
            = mkTransferStatus false requested 0 n [] 2 None) as -> by reflexivity.
    rewrite elapse_idle; [reflexivity|]. constructor. }
  destruct (briefing_shape (n - 2000)) as (d & te & Hd & E); [lia|].
  replace (n - 2000 + 2000) with n in E by lia. rewrite E.
  replace (2000 + (n - 2000)) with n by lia.
  assert (set_prop false
            (mkTransferStatus true briefing te n
               [mkTimer 0 d (Some 1000) IncElapsed;
                mkTimer 2 7000 None ToConnecting] 3 (Some (0%nat, 1%nat)))
          = mkTransferStatus false requested 0 n
              [mkTimer 2 7000 None ToConnecting] 3 None) as -> by reflexivity.
  set (c0 := mkTransferStatus _ _ _ _ _ _ _).
  destruct (N.ltb_spec (n + m) 7000) as [H1|H1].
  { rewrite elapse_idle; [reflexivity|]. repeat constructor. cbn. lia. }
  (* up to the firing of the timeout that was left pending *)
  assert (elapse (1 + (6999 - n)) c0
          = mkTransferStatus false connecting 0 7000
              [mkTimer 3 10000 None ToCompleted] 4 None) as E7.
  { rewrite elapse_add, (elapse_idle (6999 - n) c0)
      by (repeat constructor; cbn; lia).
    unfold at_time, c0. cbn [now timers isTransferRequested transferStage
                             timeElapsed next_tid cleanup].
    replace (n + (6999 - n)) with 6999 by lia. rewrite E1. reflexivity. }
  destruct (N.ltb_spec (n + m) 10000) as [H2|H2].
  { replace m with ((m - (7000 - n)) + (1 + (6999 - n))) by lia.
    rewrite elapse_add, E7.
    rewrite elapse_idle; [reflexivity|]. repeat constructor. cbn. lia. }
  replace m with ((m - (10000 - n)) + (1 + 2999) + (1 + (6999 - n))) by lia.
  rewrite elapse_add, E7, !elapse_add.
  rewrite (elapse_idle 2999) by (repeat constructor; cbn; lia).
  unfold at_time. cbn [now timers isTransferRequested transferStage
                       timeElapsed next_tid cleanup].
  rewrite E1.
  assert (tick (mkTransferStatus false connecting 0 (7000 + 2999)
                  [mkTimer 3 10000 None ToCompleted] 4 None)
          = mkTransferStatus false completed 0 10000 [] 4 None) as -> by reflexivity.
  rewrite elapse_idle; [reflexivity|]. constructor.
Qed.

Lemma withdrawal_leaves_inner_timeouts_witness :
  let c := elapse 4500 (set_prop false (elapse 3000 (mount true))) in
  render_status c = None
  /\ transferStage c = connecting
  /\ transferStage (set_prop true c) = transferStage c.
Proof.
  apply (withdrawal_leaves_inner_timeouts 3000 4500). reflexivity.
Defined.

End Progress.

(** ** The routes, whatever they are asked *)

Section Routes.

Import TokenApi Checks.

Variable toJwt : AccessToken -> option string.
Variable transport : string -> bool.

(** X6.  The token route always answers, with status 200, 400 or 500 and
    never with an exception.  It answers 400 exactly when the body can be
    read and the room or the identity is missing or falsy, whatever the
    settings are; it answers with a token exactly when the status is 200,
    which is exactly when room, identity and the three settings are there
    and the SDK signs. *)
Theorem POST_always_answers (e : env) (request : option json) :
  exists r tr,
    run (POST toJwt e request) = (Ret r, tr)
    /\ (status r = 200 \/ status r = 400 \/ status r = 500)%nat
    /\ (status r = 400%nat <->
          exists room identity,
            props request = Some (room, identity)
            /\ truthy room && truthy identity = false)
    /\ ((exists t, payload r = TokenBody t) <-> status r = 200%nat)
    /\ (forall t, payload r = TokenBody t <->
          exists room identity,
            props request = Some (room, identity)
            /\ POST_ready e room identity = true
            /\ toJwt (POST_token (e !! "LIVEKIT_API_KEY") (e !! "LIVEKIT_API_SECRET")
                                 room identity) = Some t).
Proof.
  destruct (props request) as [[room identity]|] eqn:Hp.
  - rewrite (POST_readable _ _ _ _ _ Hp). unfold POST_ready.
    destruct (truthy room) eqn:Hr, (truthy identity) eqn:Hi; simpl;
      try (eexists _, _; split; [reflexivity|]; simpl;
           split; [auto|]; split;
           [split; [intros _; exists room, identity; rewrite Hr, Hi; auto
                   |reflexivity]|];
           split; [split; [intros [t H]; discriminate|discriminate]|];
           intros t; split; [discriminate|];
           intros (r' & i' & [= <- <-] & H & _);
           rewrite ?Hr, ?Hi in H; discriminate).
    destruct (truthy (of_string (e !! "LIVEKIT_API_KEY"))),
             (truthy (of_string (e !! "LIVEKIT_API_SECRET"))),
             (truthy (of_string (e !! "NEXT_PUBLIC_LIVEKIT_URL"))); simpl;
      try (eexists _, _; split; [reflexivity|]; simpl;
           split; [auto|]; split;
           [split; [discriminate
                   |intros (r' & i' & [= <- <-] & H);
                    rewrite Hr, Hi in H; discriminate]|];
           split; [split; [intros [t H]; discriminate|discriminate]|];
           intros t; split; [discriminate|];
           intros (r' & i' & [= <- <-] & H & _);
           rewrite ?Hr, ?Hi in H; discriminate).
    destruct (toJwt _) as [t|] eqn:Ht;
      (eexists _, _; split; [reflexivity|]; simpl;
       split; [auto|]; split;
       [split; [discriminate
               |intros (r' & i' & [= <- <-] & H);
                rewrite Hr, Hi in H; discriminate]|]).
    + split; [split; eauto|].
      intros t'. split.
      * intros [= <-]. exists room, identity. rewrite Hr, Hi. repeat split; auto.
      * intros (r' & i' & [= <- <-] & _ & H). congruence.
    + split; [split; [intros [t H]; discriminate|discriminate]|].
      intros t; split; [discriminate|].
      intros (r' & i' & [= <- <-] & _ & H). congruence.
  - rewrite (POST_unreadable _ _ _ Hp).
    eexists _, _; split; [reflexivity|]; simpl.
    split; [auto|].
    split; [split; [discriminate|intros (r' & i' & [=] & _)]|].
    split; [split; [intros [t H]; discriminate|discriminate]|].
    intros t; split; [discriminate|]. intros (r' & i' & [=] & _).
Qed.

(** X7.  The room route never throws either, but it answers only when all
    went well: there is an answer exactly when the user id and
    [LIVEKIT_URL] are there, the media server has made the room and the
    SDK signs; the answer is then 200 with the uuid as room name and the
    token. *)
Theorem GET_answers_only_on_success (e : env) (userid : option string)
    (uuid : string) :
  exists res tr,
    run (GET toJwt transport e userid uuid) = (Ret res, tr)
    /\ (forall r, res = Some r <->
          GET_ready e userid = true /\ transport uuid = true
          /\ exists t, toJwt (GET_token e userid uuid) = Some t
                       /\ r = mkResponse (RoomTokenBody uuid t) 200).
Proof.
  rewrite GET_run. unfold GET_ready.
  destruct (truthy (of_string userid)); simpl;
    [|eexists _, _; split; [reflexivity|];
      intros r; split; [discriminate|intros [H _]; discriminate]].
  destruct (truthy (of_string (e !! "LIVEKIT_URL"))); simpl;
    [|eexists _, _; split; [reflexivity|];
      intros r; split; [discriminate|intros [H _]; discriminate]].
  destruct (transport uuid); simpl;
    [|eexists _, _; split; [reflexivity|];
      intros r; split; [discriminate|intros (_ & H & _); discriminate]].
  destruct (toJwt _) as [t|]; eexists _, _; (split; [reflexivity|]);
    intros r; split.
  - intros [= <-]. eauto.
  - intros (_ & _ & t' & [= <-] & ->). reflexivity.
  - discriminate.
  - intros (_ & _ & t' & H & _). discriminate.
Qed.

(** X8.  The room route calls the media server at most once, and only
    after the user id and [LIVEKIT_URL] have been checked; a token is minted
    only after the room has been made; and when the SDK then fails to sign,
    the room stays made while the caller gets nothing. *)
Theorem GET_makes_the_room_first (e : env) (userid : option string)
    (uuid : string) :
  let res := fst (run (GET toJwt transport e userid uuid)) in
  let tr := snd (run (GET toJwt transport e userid uuid)) in
  create_calls tr = (if GET_ready e userid then 1 else 0)%nat
  /\ (forall i a t, tr !! i = Some (Minted a t) ->
        exists j, (j < i)%nat /\ tr !! j = Some (CreateRoom uuid true))
  /\ (forall a t, (a, t) ∈ minted tr -> a = GET_token e userid uuid)
  /\ (GET_ready e userid = true -> transport uuid = true ->
      toJwt (GET_token e userid uuid) = None ->
      res = Ret None /\ CreateRoom uuid true ∈ tr).
Proof.
  cbv zeta. rewrite GET_run. unfold GET_ready.
  destruct (truthy (of_string userid)); simpl;
    [|repeat split; try discriminate;
      [intros [|[|i]] a t [=]|intros a t H; inversion H; inversion H2]].
  destruct (truthy (of_string (e !! "LIVEKIT_URL"))); simpl;
    [|repeat split; try discriminate;
      [intros [|[|i]] a t [=]|intros a t H; inversion H; inversion H2]].
  destruct (transport uuid); simpl;
    [|repeat split; try discriminate;
      [intros [|[|[|i]]] a t [=]|intros a t H; inversion H]].
  destruct (toJwt _) as [t|] eqn:Ht; simpl.
  - split; [reflexivity|]. split; [|split; [|discriminate]].
    + intros [|[|[|i]]] a t' [=]. exists 1%nat. split; [lia|reflexivity].
    + intros a t' H. apply list_elem_of_singleton in H. congruence.
  - split; [reflexivity|]. split; [|split].
    + intros [|[|[|i]]] a t' [=].
    + intros a t' H. inversion H.
    + intros _ _ _. split; [reflexivity|].
      apply list_elem_of_In. simpl. auto.
Qed.

End Routes.

Section RoutesSamples.

Import TokenApi Checks Samples.

Lemma GET_makes_the_room_first_witness :
  fst (run (GET broken_toJwt up full_env (Some "u1") "room-1")) = Ret None
  /\ CreateRoom "room-1" true
     ∈ snd (run (GET broken_toJwt up full_env (Some "u1") "room-1")).
Proof.
  apply (proj2 (proj2 (proj2 (GET_makes_the_room_first broken_toJwt up full_env
                                (Some "u1") "room-1"))));
    reflexivity.
Defined.

End RoutesSamples.

(** ** The transfer request route and the call room *)

Section Proxy.

Import TokenApi TransferRoute.

(** X9.  The transfer request route reads its body before its [try]: a
    body that is not JSON, or is [null], makes the handler throw without a
    call to the backend.  Otherwise it calls the backend exactly once, at
    [BACKEND_CONTROL_URL] (or [http://localhost:8000] when that is unset
    or empty) with the room alone, and answers 200 when the backend
    answers well, 502 "backend failed" when it does not, and 500 with the
    text of the error when the call throws. *)
Theorem proxy_forwards_the_room (backend : backend_call -> backend_reply)
    (e : env) (request : option json) :
  let out := fst (POST backend e request) in
  let calls := snd (POST backend e request) in
  (request = None \/ request = Some JNull ->
   calls = [] /\ exists err, out = Throw err)
  /\ (forall j, request = Some j -> j <> JNull ->
        let c := mkBackendCall (backendUrl e ++ "/api/request-transfer")
                               (forwarded_room j) in
        calls = [c]
        /\ out = Ret (match backend c with
                      | Responded true => mkRouteResponse Done 200
                      | Responded false => mkRouteResponse (Failed "backend failed") 502
                      | Rejected err => mkRouteResponse (Failed err) 500
                      end))
  /\ backendUrl e <> ""
  /\ (e !! "BACKEND_CONTROL_URL" = None \/ e !! "BACKEND_CONTROL_URL" = Some "" ->
      backendUrl e = "http://localhost:8000").
Proof.
  cbv zeta. split; [|split; [|split]].
  - intros [->| ->]; simpl; eauto.
  - intros j -> Hj. unfold POST.
    destruct j; try congruence; simpl;
      destruct (backend _) as [[]|]; simpl; auto.
  - unfold backendUrl. destruct (e !! "BACKEND_CONTROL_URL") as [u|];
      [case_bool_decide|]; congruence.
  - unfold backendUrl. intros [->| ->]; reflexivity.
Qed.

Lemma proxy_forwards_the_room_witness :
  snd (POST (fun _ => Responded false) ∅
            (CallScreen.request_body "room-1" "alice"))
  = [mkBackendCall "http://localhost:8000/api/request-transfer"
                   (Some (JStr "room-1"))]
  /\ fst (POST (fun _ => Responded false) ∅
               (CallScreen.request_body "room-1" "alice"))
     = Ret (mkRouteResponse (Failed "backend failed") 502).
Proof.
  destruct (proj1 (proj2 (proxy_forwards_the_room (fun _ => Responded false) ∅
                            (CallScreen.request_body "room-1" "alice")))
              _ eq_refl) as [H1 H2]; [discriminate|].
  split; [exact H1|exact H2].
Defined.

End Proxy.

Section TransferRequest.

Import TokenApi CallUi Http TransferRoute CallScreen.

Variable null_read : string -> string.

(** X10.  A transfer request of the call room, sent through the route: the
    body of the call room is always readable, so the route answers, and
    the backend gets the room but not the identity.  When the backend
    answers well the request stays open with its display [n] ms into its
    stages; when it does not, the request is taken back, the display is
    gone and the toast says "backend failed"; when the call to the backend
    throws, the toast shows the text of the error (or "Failed to request
    transfer" when that text is empty). *)
Theorem transfer_request_through_the_route (backend : backend_call -> backend_reply)
    (e : env) (room identity : string) (n : N) (seen : list Toast) :
  let c := mkBackendCall (backendUrl e ++ "/api/request-transfer")
                         (Some (JStr room)) in
  exists answer,
    POST backend e (request_body room identity) = (Ret answer, [c])
    /\ let r := handleTransferRequest null_read n (Answer (serve answer))
                  (mkCallRoom false seen None) in
       match backend c with
       | Responded true =>
           transferRequested r = true
           /\ panel r = Some (elapse n (mount true))
           /\ last (toasts r)
              = Some (mkToast "Transfer Initiated"
                        "Agent A is briefing Agent B about your conversation" None)
       | Responded false =>
           transferRequested r = false /\ panel r = None
           /\ last (toasts r)
              = Some (mkToast "Transfer Failed" "backend failed" (Some "destructive"))
       | Rejected err =>
           transferRequested r = false /\ panel r = None
           /\ last (toasts r)
              = Some (mkToast "Transfer Failed"
                        (if bool_decide (err = "") then "Failed to request transfer"
                         else err)
                        (Some "destructive"))
       end.
Proof.
  cbv zeta. unfold POST, request_body. cbn [field bool_decide].
  change (field "room" [("room", JStr room); ("identity", JStr identity)])
    with (Some (JStr room)).
  set (c := mkBackendCall _ _).
  destruct (backend c) as [[]|err]; eexists; (split; [reflexivity|]).
  - unfold handleTransferRequest, transfer_failure. simpl.
    repeat split; try reflexivity. apply last_snoc.
  - unfold handleTransferRequest, transfer_failure. simpl.
    repeat split; try reflexivity. apply last_snoc.
  - unfold handleTransferRequest, transfer_failure. simpl.
    destruct (bool_decide (err = "")); simpl;
      repeat split; try reflexivity; apply last_snoc.
Qed.

End TransferRequest.

(** ** The call screen and the token route *)

Section JoinCall.

Import TokenApi Checks Http CallScreen.

Variable toJwt : AccessToken -> option string.
Variable null_read : string -> string.

(** X11.  What the call screen shows once the token route has answered
    its request, when both read the same [NEXT_PUBLIC_LIVEKIT_URL]: the
    spinner is gone; with everything in place and a signing SDK the room is
    shown with the token of the route; otherwise the error card shows the
    message of the route ("Room and identity are required" for an empty
    room or identity, the credentials message for a missing setting,
    "Failed to generate token" when the SDK throws).  The configuration
    card is never shown after an answer of the route. *)
Theorem call_screen_shows_the_route_answer (e : env) (room identity : string) :
  exists r tr,
    run (POST toJwt e (request_body room identity)) = (Ret r, tr)
    /\ let c := getToken null_read room identity (Answer (serve_token r)) loading in
       isLoading c = false
       /\ view (e !! "NEXT_PUBLIC_LIVEKIT_URL") c
          = if bool_decide (room = "") || bool_decide (identity = "") then
              ErrorCard "Room and identity are required"
            else if negb (POST_ready e (Some (JStr room)) (Some (JStr identity))) then
              ErrorCard credentials_message
            else
              match toJwt (POST_token (e !! "LIVEKIT_API_KEY")
                             (e !! "LIVEKIT_API_SECRET")
                             (Some (JStr room)) (Some (JStr identity))) with
              | Some t =>
                  Room (Some (JStr t)) (default "" (e !! "NEXT_PUBLIC_LIVEKIT_URL"))
              | None => ErrorCard "Failed to generate token"
              end.
Proof.
  assert (props (request_body room identity)
          = Some (Some (JStr room), Some (JStr identity))) as Hp by reflexivity.
  rewrite (POST_readable _ _ _ _ _ Hp). unfold POST_ready.
  cbn [truthy].
  destruct (bool_decide (room = "")); cbn [negb orb andb];
    [eexists _, _; split; [reflexivity|]; split; reflexivity|].
  destruct (bool_decide (identity = "")); cbn [negb orb andb];
    [eexists _, _; split; [reflexivity|]; split; reflexivity|].
  destruct (truthy (of_string (e !! "LIVEKIT_API_KEY"))); cbn [negb orb andb];
    [|eexists _, _; split; [reflexivity|]; split; reflexivity].
  destruct (truthy (of_string (e !! "LIVEKIT_API_SECRET"))); cbn [negb orb andb];
    [|eexists _, _; split; [reflexivity|]; split; reflexivity].
  destruct (e !! "NEXT_PUBLIC_LIVEKIT_URL") as [u|] eqn:Hu; cbn [of_string fmap option_fmap option_map truthy];
    [|eexists _, _; split; [reflexivity|]; split; reflexivity].
  destruct (bool_decide (u = "")) eqn:Hb; cbn [negb orb andb];
    [eexists _, _; split; [reflexivity|]; split; reflexivity|].
  cbv zeta.
  destruct (toJwt _) as [t|]; eexists _, _;
    (split; [reflexivity|]); (split; [reflexivity|]).
  - unfold view, getToken, token_of. simpl. rewrite Hb. reflexivity.
  - reflexivity.
Qed.

End JoinCall.

Section HomePage.

Import TokenApi CallScreen.

Variable trim : string -> string.
Hypothesis trim_empty : trim "" = "".

(** X12.  The home page connects only with a room and a name that are not
    blank, and leaves both as they were typed; so the token request that
    the call screen then makes for them is never answered 400.  While the
    button is disabled [handleConnect] does nothing. *)
Theorem home_connects_with_names (toJwt : AccessToken -> option string)
    (e : env) (h : Home) :
  home_room (handleConnect trim h) = home_room h
  /\ home_identity (handleConnect trim h) = home_identity h
  /\ (connect_disabled trim h = true -> handleConnect trim h = h)
  /\ (connect_disabled trim h = false ->
      isConnected (handleConnect trim h) = true
      /\ home_room h <> "" /\ home_identity h <> ""
      /\ forall r tr,
           run (POST toJwt e (request_body (home_room h) (home_identity h)))
           = (Ret r, tr) ->
           status r <> 400%nat).
Proof.
  unfold handleConnect, connect_disabled.
  destruct (bool_decide (trim (home_room h) = "")) eqn:Hr;
    destruct (bool_decide (trim (home_identity h) = "")) eqn:Hi; simpl;
    (split; [reflexivity|]); (split; [reflexivity|]);
    (split; [reflexivity || discriminate|]); try discriminate.
  intros _. split; [reflexivity|].
  apply bool_decide_eq_false in Hr, Hi.
  assert (home_room h <> "") as Hr' by (intros E; rewrite E in Hr; auto).
  assert (home_identity h <> "") as Hi' by (intros E; rewrite E in Hi; auto).
  split; [exact Hr'|]. split; [exact Hi'|].
  intros r tr Hrun.
  assert (props (request_body (home_room h) (home_identity h))
          = Some (Some (JStr (home_room h)), Some (JStr (home_identity h))))
    as Hp by reflexivity.
  rewrite (POST_readable _ _ _ _ _ Hp) in Hrun. cbn [truthy] in Hrun.
  rewrite !bool_decide_eq_false_2 in Hrun by assumption.
  cbn [negb orb] in Hrun.
  destruct (_ || _) in Hrun; [injection Hrun as <- _; discriminate|].
  cbv zeta in Hrun.
  destruct (toJwt _) in Hrun; injection Hrun as <- _; discriminate.
Qed.

End HomePage.

Section HomePageSample.

Import TokenApi CallScreen Samples.

Lemma home_connects_with_names_witness :
  isConnected (handleConnect ascii_trim (mkHome " room 1 " "alice" false)) = true
  /\ forall r tr,
       run (POST sample_toJwt full_env (request_body " room 1 " "alice"))
       = (Ret r, tr) ->
       status r <> 400%nat.
Proof.
  destruct (home_connects_with_names ascii_trim eq_refl sample_toJwt full_env
              (mkHome " room 1 " "alice" false))
    as (_ & _ & _ & H).
  destruct (H eq_refl) as (H1 & _ & _ & H2). split; [exact H1|exact H2].
Defined.

End HomePageSample.

(** ** The participant monitor *)

Section Tracking.

Import CallUi Monitor.

Lemma carried_refl a : carried a a.
Proof.
  split; [reflexivity|]. split; [reflexivity|]. split; [lia|auto].
Qed.

Lemma carried_trans a b c : carried a b -> carried b c -> carried a c.
Proof.
  intros (H1 & H2 & H3 & H4) (K1 & K2 & K3 & K4).
  split; [congruence|]. split; [congruence|]. split; [lia|auto].
Qed.

(** One visit: the entry of the visited participant is there, carried over
    if it was there before, with a quality that fits; the other entries
    are as they were. *)
Lemma visit_self w r p :
  exists a',
    activities (visit w r p) !! identity p = Some a'
    /\ quality_fits (identity p) a'
    /\ (forall a, activities r !! identity p = Some a -> carried a a').
Proof.
  unfold visit, quality_fits.
  destruct (activities r !! identity p) as [a|] eqn:E;
    destruct (isSpeaking p); simpl;
    try destruct (bool_decide (is_Some (lastSpoke a))) eqn:B; simpl;
    destruct (includes "agent" (identity p)); simpl;
    try destruct (random_high w (randoms r)); simpl;
    rewrite lookup_insert_eq; eexists; (split; [reflexivity|]); simpl;
    (split; [auto|]); intros a0 [= <-];
    repeat split; simpl; auto; try lia.
  all: intros t Ht; apply bool_decide_eq_false in B;
    exfalso; apply B; rewrite Ht; eauto.
Qed.

Lemma visit_other w r p id :
  id <> identity p -> activities (visit w r p) !! id = activities r !! id.
Proof.
  intros H. unfold visit.
  repeat (match goal with
          | |- context [let '(_, _) := ?x in _] => destruct x eqn:?
          end).
  simpl. apply lookup_insert_ne. congruence.
Qed.

Lemma visit_carried w r p id a :
  activities r !! id = Some a ->
  exists a', activities (visit w r p) !! id = Some a' /\ carried a a'.
Proof.
  intros H. destruct (decide (id = identity p)) as [->|Hne].
  - destruct (visit_self w r p) as (a' & H1 & _ & H3). eauto.
  - rewrite visit_other by exact Hne. exists a. split; [exact H|apply carried_refl].
Qed.

Lemma fold_visit w ps : forall r,
  let r' := fold_left (visit w) ps r in
  (forall id, id ∉ identity <$> ps -> activities r' !! id = activities r !! id)
  /\ (forall id a, activities r !! id = Some a ->
        exists a', activities r' !! id = Some a' /\ carried a a')
  /\ (forall p, p ∈ ps ->
        exists a', activities r' !! identity p = Some a'
                   /\ quality_fits (identity p) a').
Proof.
  induction ps as [|q ps IH]; intros r; simpl.
  - split; [auto|]. split; [|intros p Hp; inversion Hp].
    intros id a H. exists a. split; [exact H|apply carried_refl].
  - destruct (IH (visit w r q)) as (I1 & I2 & I3). split; [|split].
    + intros id Hid. rewrite not_elem_of_cons in Hid. destruct Hid as [Hq Hps].
      rewrite I1 by exact Hps. apply visit_other. exact Hq.
    + intros id a H. destruct (visit_carried w r q id a H) as (a1 & H1 & C1).
      destruct (I2 id a1 H1) as (a2 & H2 & C2).
      exists a2. split; [exact H2|]. eapply carried_trans; eauto.
    + intros p Hp. apply elem_of_cons in Hp as [->|Hp]; [|apply I3; exact Hp].
      destruct (decide (identity q ∈ identity <$> ps)) as [Hin|Hout].
      * apply list_elem_of_fmap in Hin as (p' & Hid & Hp').
        destruct (I3 p' Hp') as (a' & Ha' & Hq'). rewrite <- Hid in Ha', Hq'. eauto.
      * rewrite I1 by exact Hout.
        destruct (visit_self w r q) as (a' & H1 & H2 & _). eauto.
Qed.

(** X13.  One run of the monitor's tracking effect, whatever the clock and
    the random numbers are: the new map has an entry exactly for the
    identities that had one and for those of the participants; the entries
    of identities that are not among the participants are untouched; no
    entry is lost, and one that was there keeps its identity, its joining
    time and its first speaking time, and its speaking count does not go
    down; the entry of a participant whose identity contains "agent" has
    quality "excellent", that of any other participant "good" or "poor". *)
Theorem tracking_keeps_and_adds w prev ps :
  (forall id, is_Some (track w prev ps !! id)
              <-> is_Some (prev !! id) \/ id ∈ identity <$> ps)
  /\ (forall id, id ∉ identity <$> ps -> track w prev ps !! id = prev !! id)
  /\ (forall id a, prev !! id = Some a ->
        exists a', track w prev ps !! id = Some a' /\ carried a a')
  /\ (forall p a', p ∈ ps -> track w prev ps !! identity p = Some a' ->
        if includes "agent" (identity p) then connectionQuality a' = "excellent"
        else connectionQuality a' = "good" \/ connectionQuality a' = "poor").
Proof.
  unfold track.
  destruct (fold_visit w ps (mkRun prev 0 0)) as (I1 & I2 & I3). simpl in *.
  split; [|split; [exact I1|split; [exact I2|]]].
  - intros id. split.
    + intros Hs. destruct (decide (id ∈ identity <$> ps)) as [Hin|Hout];
        [right; exact Hin|left]. rewrite <- I1 by exact Hout. exact Hs.
    + intros [[a Ha]|Hin].
      * destruct (I2 id a Ha) as (a' & Ha' & _). eauto.
      * apply list_elem_of_fmap in Hin as (p & -> & Hp).
        destruct (I3 p Hp) as (a' & Ha' & _). eauto.
  - intros p a' Hp Ha'. destruct (I3 p Hp) as (a'' & Ha'' & Hq).
    rewrite Ha' in Ha''. injection Ha'' as <-. exact Hq.
Qed.

End Tracking.

(** ** The demo page and its connections *)

Section DemoHandles.

Import DemoPage Checks Samples.

(** X15.  [initiateCall], [connectAgentA], [initiateTransfer] and
    [speakSummaryViaMic] close nothing: in every world they go through
    the connections and the published tracks that were there before are
    still there, in the same order, followed by what has been added. *)
Theorem connections_outlive_the_earlier_handlers admits w w' :
  (exists reply, In w' (initiateCall admits reply w))
  \/ (exists reply, In w' (connectAgentA admits reply w))
  \/ (exists reply, In w' (initiateTransfer admits reply w))
  \/ (exists track, In w' (speakSummaryViaMic track w)) ->
  live (media w) `prefix_of` live (media w')
  /\ published (media w) `prefix_of` published (media w').
Proof.
  unfold initiateCall, connectAgentA, initiateTransfer, speakSummaryViaMic, connectRoom.
  intros [[reply H]|[[reply H]|[[reply H]|[track H]]]]; revert H.
  - destruct reply as [r|]; [|intros []]. cbn [media setOrigRoomId].
    destruct (admits _); simpl; intros H;
      repeat (destruct H as [<-|H]; [simpl; split; first [reflexivity|apply prefix_app_r; reflexivity]|]);
      destruct H.
  - destruct (bool_decide _); [intros []|].
    destruct reply as [r|]; [|intros []].
    destruct (admits _); simpl; intros H;
      repeat (destruct H as [<-|H]; [simpl; split; first [reflexivity|apply prefix_app_r; reflexivity]|]);
      destruct H.
  - destruct (bool_decide _); [intros []|].
    destruct reply as [r|]; [|intros []]. cbv zeta.
    cbn [media setSummary setTransferInfo setAgentARoom setMedia].
    destruct (admits (agent_a_token r)); [destruct (admits (agent_b_token r))|];
      simpl; intros H;
      repeat (destruct H as [<-|H];
              [simpl; split;
               first [reflexivity|apply prefix_app_r; reflexivity
                     |apply prefix_app_r, prefix_app_r; reflexivity]|]);
      destruct H.
  - destruct (agentARoom w) as [h|]; [|intros []].
    destruct (bool_decide _); [intros []|].
    simpl. intros [<-|[]]. simpl. split; [reflexivity|apply prefix_app_r; reflexivity].
Qed.


(** X16.  [initiateTransfer] overwrites the handle of Agent A's connection
    and leaves the connection open: when the page holds a live connection
    for Agent A and the server admits Agent A's transfer token, that
    connection is still live afterwards, while the page's handle for
    Agent A is the new connection made with the transfer token. *)
Theorem transfer_overwrites_agentA_handle admits r w h :
  tidy w -> origRoomId w <> "" ->
  agentARoom w = Some h -> connected h w ->
  admits (agent_a_token r) = true ->
  let w' := after (initiateTransfer admits (Some r) w) w in
  connected h w'
  /\ agentARoom w' = Some (fresh (media w))
  /\ agentARoom w' <> Some h
  /\ (exists c, In c (live (media w')) /\ cid c = fresh (media w)
                /\ who c = agent_a_token r).
Proof.
  intros Hw Ho Ha Hh Hadm w'.
  assert (h < fresh (media w)) as Hlt by (apply Hw; auto).
  subst w'. unfold initiateTransfer, after, connectRoom, connected.
  rewrite bool_decide_eq_false_2 by exact Ho.
  cbv zeta. cbn [media setSummary setTransferInfo setAgentARoom setMedia].
  rewrite Hadm.
  destruct Hh as (c & Hc & Hcid).
  destruct (admits (agent_b_token r)); cbn [List.last media agentARoom setStatus setAgentBRoom
      setAgentARoom setMedia live fresh].
  - split; [exists c; split; [|exact Hcid]; rewrite !in_app_iff; auto|].
    split; [reflexivity|]. split; [intros [= E]; lia|].
    eexists. split; [rewrite !in_app_iff; left; right; left; reflexivity|]. split; reflexivity.
  - split; [exists c; split; [|exact Hcid]; rewrite !in_app_iff; auto|].
    split; [reflexivity|]. split; [intros [= E]; lia|].
    eexists. split; [rewrite !in_app_iff; right; left; reflexivity|]. split; reflexivity.
Qed.


(** X17.  A handoff whose last join is admitted: the status is
    "transfer_completed", the page holds no connection for Agent A, its
    handle for Agent B is a new live connection made with the token of
    the reply, the connections the page held for the two agents are
    closed, and no track is published over Agent A's old connection. *)
Theorem handoff_swaps_the_connections admits r ti w :
  tidy w -> origRoomId w <> "" -> transferInfo w = Some ti ->
  admits (ct_agent_b_token (resp r)) = true ->
  let w' := after (leaveTransferAndComplete admits (Some r) w) w in
  status w' = "transfer_completed"
  /\ agentARoom w' = None
  /\ agentBRoom w' = Some (fresh (media w))
  /\ (exists c, In c (live (media w')) /\ cid c = fresh (media w)
                /\ who c = ct_agent_b_token (resp r))
  /\ (forall h, agentARoom w = Some h \/ agentBRoom w = Some h -> ~ connected h w')
  /\ (forall h t, agentARoom w = Some h -> ~ In (h, t) (published (media w'))).
Proof.
  intros Hw Ho Ht Hadm w'.
  assert (forall h, agentARoom w = Some h -> h < fresh (media w)) as Ha by (intros; apply Hw; auto).
  assert (forall h, agentBRoom w = Some h -> h < fresh (media w)) as Hb by (intros; apply Hw; auto).
  subst w'. unfold leaveTransferAndComplete, after, connectRoom, connected.
  rewrite bool_decide_eq_false_2 by exact Ho. rewrite Ht. cbv zeta.
  destruct (agentBRoom w) as [hb|] eqn:EB in |- *;
    cbn [media setMedia setAgentBRoom fresh disconnect server_remove];
    rewrite Hadm;
    (destruct (agentARoom w) as [ha|] eqn:EA in |- *;
      [destruct (agentATrack w) as [t|] eqn:ET in |- *|]);
    cbn [List.last media status agentARoom agentBRoom setStatus setAgentARoom setAgentBRoom
         setAgentATrack setMedia fresh live published disconnect server_remove unpublishTrack].
  all: split; [reflexivity|].
  all: split; [first [reflexivity|exact EA]|].
  all: split; [reflexivity|].
  all: try pose proof (Ha _ EA) as Hlt_a.
  all: try pose proof (Hb _ EB) as Hlt_b.
  all: split;
    [exists (mkConnection (fresh (media w)) (ct_agent_b_token (resp r)));
     split; [|split; reflexivity];
     repeat first [apply in_or_app; right; left; reflexivity
                  |apply filter_In; split
                  |cbn [cid]; apply negb_true_iff, Nat.eqb_neq; lia]
    |].
  all: split;
    [intros h Hh (c & Hin & Hc);
     repeat match goal with
       | H : In _ (List.filter _ _) |- _ => apply filter_In in H as [H ?]
       | H : In _ (_ ++ _)%list |- _ => apply in_app_or in H as [H|H]
       | H : In _ [_] |- _ => destruct H as [<-|[]]
       | H : negb _ = true |- _ => apply negb_true_iff in H
       | H : (_ =? _)%nat = false |- _ => apply Nat.eqb_neq in H
       end;
     cbn [cid] in *;
     destruct Hh as [Hh|Hh]; try discriminate Hh; injection Hh as <-; lia
    |intros h t' Hh Hin; try discriminate Hh; injection Hh as <-;
     apply filter_In in Hin as [_ Hf]; cbn [fst] in Hf;
     rewrite Nat.eqb_refl in Hf; discriminate Hf].
Qed.


(** X18.  A handoff whose last join is refused leaves Agent B outside:
    the page holds no connection for Agent B and the one it held is
    closed, while the status and Agent A's handle are as before and no
    connection has been added. *)
Theorem handoff_refused_strands_agentB admits r ti w :
  origRoomId w <> "" -> transferInfo w = Some ti ->
  admits (ct_agent_b_token (resp r)) = false ->
  let w' := after (leaveTransferAndComplete admits (Some r) w) w in
  agentBRoom w' = None
  /\ (forall h, agentBRoom w = Some h -> ~ connected h w')
  /\ status w' = status w
  /\ agentARoom w' = agentARoom w
  /\ (forall c, In c (live (media w')) -> In c (live (media w))).
Proof.
  intros Ho Ht Hadm w'.
  subst w'. unfold leaveTransferAndComplete, after, connectRoom, connected.
  rewrite bool_decide_eq_false_2 by exact Ho. rewrite Ht. cbv zeta.
  destruct (agentBRoom w) as [hb|] eqn:EB;
    cbn [media setMedia setAgentBRoom fresh disconnect server_remove];
    rewrite Hadm;
    cbn [List.last media status agentARoom agentBRoom setStatus setAgentARoom setAgentBRoom
         setAgentATrack setMedia fresh live published disconnect server_remove].
  - split; [reflexivity|]. split.
    + intros h [= <-] (c & Hin & Hc). apply filter_In in Hin as [_ Hf].
      rewrite Hc, Nat.eqb_refl in Hf. discriminate Hf.
    + split; [reflexivity|]. split; [reflexivity|].
      intros c Hin. apply filter_In in Hin as [Hin _].
      apply filter_In in Hin as [Hin _]. exact Hin.
  - split; [exact EB|]. split; [intros h [=]|].
    split; [reflexivity|]. split; [reflexivity|].
    intros c Hin. apply filter_In in Hin as [Hin _]. exact Hin.
Qed.

Ltac sample_tidy :=
  unfold tidy; vm_compute; split;
  [repeat (apply List.Forall_cons; [simpl; lia|]); apply List.Forall_nil
  |split;
   [apply (bool_decide_unpack _); vm_compute; exact I
   |let h := fresh "h" in let H := fresh "H" in
    intros h [H|[H|H]]; first [discriminate H | injection H as <-; lia]]].

Lemma connections_outlive_the_earlier_handlers_witness :
  live (media call_started) `prefix_of` live (media agentA_connected)
  /\ published (media call_started) `prefix_of` published (media agentA_connected).
Proof.
  apply (connections_outlive_the_earlier_handlers everyone).
  right. left. exists (Some (mkConnectAgentResp "R1" (mkToken agent_a_id "R1"))).
  vm_compute. right. left. reflexivity.
Defined.

Lemma transfer_overwrites_agentA_handle_witness :
  let r := mkTransferResp "R1" "R2" (mkToken agent_a_id "R2")
             (mkToken agent_b_id "R2") "forgot password" in
  connected 1 in_transfer
  /\ agentARoom in_transfer = Some 2
  /\ agentARoom in_transfer <> Some 1
  /\ (exists c, In c (live (media in_transfer)) /\ cid c = 2
                /\ who c = agent_a_token r).
Proof.
  apply (transfer_overwrites_agentA_handle everyone
           (mkTransferResp "R1" "R2" (mkToken agent_a_id "R2")
              (mkToken agent_b_id "R2") "forgot password")
           agentA_connected 1).
  - sample_tidy.
  - vm_compute. discriminate.
  - reflexivity.
  - exists (mkConnection 1 (mkToken agent_a_id "R1")).
    split; [vm_compute; right; left; reflexivity|reflexivity].
  - reflexivity.
Defined.

Lemma handoff_swaps_the_connections_witness :
  let r := mkCompleteReply
             (mkCompleteTransferResp "R1" (mkToken agent_b_id "R1") "completed") [] in
  let w' := after (leaveTransferAndComplete everyone (Some r) in_transfer) in_transfer in
  status w' = "transfer_completed"
  /\ agentARoom w' = None
  /\ agentBRoom w' = Some 4
  /\ (exists c, In c (live (media w')) /\ cid c = 4
                /\ who c = mkToken agent_b_id "R1")
  /\ (forall h, agentARoom in_transfer = Some h \/ agentBRoom in_transfer = Some h ->
                ~ connected h w')
  /\ (forall h t, agentARoom in_transfer = Some h -> ~ In (h, t) (published (media w'))).
Proof.
  apply (handoff_swaps_the_connections everyone
           (mkCompleteReply
              (mkCompleteTransferResp "R1" (mkToken agent_b_id "R1") "completed") [])
           (mkTransferResp "R1" "R2" (mkToken agent_a_id "R2")
              (mkToken agent_b_id "R2") "forgot password")
           in_transfer).
  - sample_tidy.
  - vm_compute. discriminate.
  - reflexivity.
  - reflexivity.
Defined.

Lemma handoff_refused_strands_agentB_witness :
  let r := mkCompleteReply
             (mkCompleteTransferResp "R1" (mkToken agent_b_id "R1") "completed") [] in
  let w' := after (leaveTransferAndComplete (fun _ => false) (Some r) in_transfer)
                  in_transfer in
  agentBRoom w' = None
  /\ (forall h, agentBRoom in_transfer = Some h -> ~ connected h w')
  /\ status w' = "transfer_room_connected"
  /\ agentARoom w' = Some 2
  /\ (forall c, In c (live (media w')) -> In c (live (media in_transfer))).
Proof.
  apply (handoff_refused_strands_agentB (fun _ => false)
           (mkCompleteReply
              (mkCompleteTransferResp "R1" (mkToken agent_b_id "R1") "completed") [])
           (mkTransferResp "R1" "R2" (mkToken agent_a_id "R2")
              (mkToken agent_b_id "R2") "forgot password")
           in_transfer).
  - vm_compute. discriminate.
  - reflexivity.
  - reflexivity.
Defined.

End DemoHandles.
